(** * templates-require-inputs: a shallow embedding of the rule's tracking engine

    Source: [src/templatesRequireInputsRule.ts].  The rule correlates the
    inputs a component class declares (with their requiredness) against the
    inputs each template usage of that component supplies.

    Conventions of the embedding:
    - JavaScript strings are [string]s, read as sequences of code units in
      the range 0..255; numbers that the source only prints or compares are
      integers in [Z];
    - a method of a class is a function of the object's fields that returns
      the method's outcome together with the updated fields; the fields are
      returned also when the method throws, since assignments made before a
      [throw] stay;
    - an exception is the [Throw] outcome of [res]; [null] and [undefined]
      returned where the signature promises an array are kept apart from
      arrays in [ret];
    - [new Function(...)], the only host facility the rule's logic depends
      on, is a parameter of the walker. *)

From Stdlib Require Import ZArith Ascii String DecimalString.
From stdpp Require Import base option list strings gmap.

Local Open Scope Z_scope.
Local Open Scope string_scope.
Local Open Scope list_scope.

(** ** JavaScript values and primitives used by the rule *)

Module Js.

(** The two kinds of exception objects that occur: [new Error(message)] thrown
    by the rule, and the [TypeError] of the runtime for a property access on
    [null] or [undefined].  The wording of a [TypeError] belongs to the
    engine; the message kept here only tells which access failed. *)
Inductive exn : Type :=
| Error (message : string)
| TypeError (message : string).

Inductive res (A : Type) : Type :=
| Ok (a : A)
| Throw (e : exn).
Arguments Ok {A} a.
Arguments Throw {A} e.

Definition bind {A B} (r : res A) (k : A → res B) : res B :=
  match r with
  | Ok a => k a
  | Throw e => Throw e
  end.

Definition fmap {A B} (f : A → B) (r : res A) : res B :=
  bind r (λ a, Ok (f a)).

(** [xs.map(f)] for a callback that may throw: elements are visited from the
    left and the first exception ends the loop. *)
Fixpoint mapM {A B} (f : A → res B) (xs : list A) : res (list B) :=
  match xs with
  | [] => Ok []
  | x :: xs' => bind (f x) (λ y, bind (mapM f xs') (λ ys, Ok (y :: ys)))
  end.

(** [xs.indexOf(x)]: the first index holding [x], or [-1]. *)
Fixpoint indexOf {A} `{EqDecision A} (xs : list A) (x : A) : Z :=
  match xs with
  | [] => -1
  | y :: xs' =>
      if decide (y = x) then 0
      else let r := indexOf xs' x in if decide (r = -1) then -1 else r + 1
  end.

(** [xs[i]] for a number [i]; [None] is [undefined]. *)
Definition index {A} (xs : list A) (i : Z) : option A :=
  if decide (i < 0) then None else xs !! Z.to_nat i.

(** Truthiness of [xs[i]] for an array of booleans ([undefined] is falsy). *)
Definition truthy_at (xs : list bool) (i : Z) : bool :=
  default false (index xs i).

(** A string in a boolean position is truthy unless it is empty; [null]
    ([None]) is falsy. *)
Definition truthy_string (s : option string) : bool :=
  match s with
  | Some (String _ _) => true
  | _ => false
  end.

(** [`${n}`] for an integer. *)
Definition of_number (n : Z) : string := NilZero.string_of_int (Z.to_int n).

(** [`${s}`] for a field that may still be [undefined]. *)
Definition of_optional (s : option string) : string := default "undefined" s.

(** [s.slice(start, end)] with JavaScript's clamping of both indices. *)
Definition clamp (len i : Z) : Z :=
  if decide (i < 0) then Z.max (len + i) 0 else Z.min i len.

Definition slice (s : string) (start end_ : Z) : string :=
  let len := Z.of_nat (String.length s) in
  let from := clamp len start in
  let to := clamp len end_ in
  String.substring (Z.to_nat from) (Z.to_nat (to - from)) s.

(** [s.slice(start)]. *)
Definition slice_from (s : string) (start : Z) : string :=
  slice s start (Z.of_nat (String.length s)).

(** [s.indexOf(c)] for a one-character needle. *)
Fixpoint indexOf_char (s : string) (c : ascii) : Z :=
  match s with
  | EmptyString => -1
  | String d s' =>
      if decide (d = c) then 0
      else let r := indexOf_char s' c in if decide (r = -1) then -1 else r + 1
  end.

(** [s.includes(needle)]. *)
Fixpoint includes (s needle : string) : bool :=
  String.prefix needle s ||
  match s with
  | EmptyString => false
  | String _ s' => includes s' needle
  end.

End Js.

Import Js.

(** ** The data model ([interface]s of the source and the syntax-tree nodes
    they refer to) *)

(** An argument of a decorator call, as far as the rule looks at it: whether
    its [kind] is [SyntaxKind.StringLiteral], and then its [text]. *)
Inductive Expression : Type :=
| StringLiteral (text : string)
| OtherExpression.

(** [ts.Decorator]: the [arguments] of its call expression, its [pos], and
    the [fileName] of [getSourceFile()]. *)
Module Decorator.
Record t : Type := mk {
  arguments : list Expression;
  pos : Z;
  sourceFileName : string;
}.
End Decorator.

(** [ast.ElementAst]: [inputs] and [attrs] are kept by the [name] of each
    entry, [sourceSpan] by the three numbers read from it. *)
Module ElementAst.
Record t : Type := mk {
  name : string;
  inputs : list string;
  attrs : list string;
  sourceSpan_start_line : Z;
  sourceSpan_start_offset : Z;
  sourceSpan_end_offset : Z;
}.
End ElementAst.

Module IElementTracker.
Record t : Type := mk {
  fileName : string;
  element : ElementAst.t;
  properties : list string;
}.
End IElementTracker.

Module IFailure.
Record t : Type := mk {
  inputName : string;
  decorator : Decorator.t;
  message : string;
}.
End IFailure.

(** The checks of a component are closures made by the walker ([pushLast] is
    the only place that builds an [IComponent]).  They read the walker's
    [componentName] field when they run (to word an exception), so a check
    takes the field's value at the time of the call as [Env].  Each call
    returns a new failure object, so the assignments [process] makes to
    [result.message] are modelled by building a new value. *)
Definition Env : Type := option string.

Definition Check : Type := Env → list bool → res (option IFailure.t).

Module IComponent.
Record t : Type := mk {
  properties : list string;
  checks : list Check;
}.
End IComponent.

(** What a method declared to return [IFailure[]] hands back. *)
Inductive ret : Type :=
| undefined
| null
| array (failures : list IFailure.t).

#[global] Instance Expression_eq_dec : EqDecision Expression.
Proof. solve_decision. Defined.
#[global] Instance Decorator_eq_dec : EqDecision Decorator.t.
Proof. solve_decision. Defined.
#[global] Instance IFailure_eq_dec : EqDecision IFailure.t.
Proof. solve_decision. Defined.

(** ** [class ComponentTracker] *)

Module ComponentTracker.

Record t : Type := mk {
  elementQueue : list IElementTracker.t;
  component : option IComponent.t;
}.

(** [new ComponentTracker()] *)
Definition new : t := mk [] None.

(** The [args] array that [process] fills: one flag per declared property,
    telling whether the usage supplies it. *)
Definition args (c : IComponent.t) (tracker : IElementTracker.t) : list bool :=
  map (λ property,
         bool_decide (indexOf (IElementTracker.properties tracker) property > -1))
      (IComponent.properties c).

(** The two location qualifiers appended by [process]. *)
Definition declared_in (d : Decorator.t) : string :=
  " (declared in " +:+ Decorator.sourceFileName d +:+ ":"
    +:+ of_number (Decorator.pos d) +:+ ")".

Definition used_in (tracker : IElementTracker.t) : string :=
  " (used in " +:+ IElementTracker.fileName tracker +:+ ":"
    +:+ of_number (ElementAst.sourceSpan_start_line (IElementTracker.element tracker))
    +:+ ")".

(** The callback of [this.component.checks.map(...)] in [process]. *)
Definition process_check (env : Env) (tracker : IElementTracker.t)
    (fromElement : bool) (args : list bool) (check : Check)
  : res (option IFailure.t) :=
  bind (check env args) (λ result,
    match result with
    | None => Ok None
    | Some result =>
        let message1 :=
          "Component <" +:+ ElementAst.name (IElementTracker.element tracker)
            +:+ "> " +:+ IFailure.message result in
        let message2 :=
          message1 +:+
          (if fromElement then declared_in (IFailure.decorator result)
           else used_in tracker) in
        Ok (Some (IFailure.mk (IFailure.inputName result)
                              (IFailure.decorator result) message2))
    end).

(** [process(tracker, fromElement)].  Reading [this.component.properties]
    while [this.component] is unset is the runtime's [TypeError]; no caller
    in the source reaches it. *)
Definition process (env : Env) (this : t) (tracker : IElementTracker.t)
    (fromElement : bool) : res (list IFailure.t) :=
  match component this with
  | None => Throw (TypeError "Cannot read property 'properties' of undefined")
  | Some c =>
      let args := args c tracker in
      fmap (omap id)
           (mapM (process_check env tracker fromElement args) (IComponent.checks c))
  end.

(** [addElement(fileName, element)].  The branch that queues the record has
    no [return] statement, so the call evaluates to [undefined]. *)
Definition addElement (env : Env) (fileName : string) (element : ElementAst.t)
    (this : t) : res ret * t :=
  let record :=
    IElementTracker.mk fileName element
      (ElementAst.inputs element ++ ElementAst.attrs element) in
  match component this with
  | Some _ => (fmap array (process env this record true), this)
  | None => (Ok undefined, mk (elementQueue this ++ [record]) (component this))
  end.

(** [addComponent(component)] *)
Definition addComponent (env : Env) (component : IComponent.t) (this : t)
  : res (list IFailure.t) * t :=
  let queue := elementQueue this in
  let this' := mk [] (Some component) in
  (fmap (λ items, concat items)
        (mapM (λ item, process env this' item false) queue),
   this').

(** *** Runs of one tracker

    What reaches the tracker of one tag during a pass: usages and
    declarations, each with the value the declaring walker's [componentName]
    has when the call is made.  Nothing in the source catches an exception,
    so a run ends at the first one. *)

Inductive event : Type :=
| Usage (env : Env) (fileName : string) (element : ElementAst.t)
| Declaration (env : Env) (component : IComponent.t).

Definition step (ev : event) (this : t) : res ret * t :=
  match ev with
  | Usage env fileName element => addElement env fileName element this
  | Declaration env c =>
      let '(r, this') := addComponent env c this in (fmap array r, this')
  end.

Fixpoint run (evs : list event) (this : t) : res (list ret) * t :=
  match evs with
  | [] => (Ok [], this)
  | ev :: evs' =>
      let '(r, this') := step ev this in
      match r with
      | Throw e => (Throw e, this')
      | Ok x =>
          let '(rs, this'') := run evs' this' in
          (fmap (cons x) rs, this'')
      end
  end.

(** The failures a caller gets to iterate over. *)
Definition failures_of (r : ret) : list IFailure.t :=
  match r with
  | array failures => failures
  | undefined | null => []
  end.

Definition reported (evs : list event) (this : t) : res (list IFailure.t) :=
  fmap (λ rs, concat (map failures_of rs)) (fst (run evs this)).

(** A usage as the pass delivers it, and the record [addElement] makes of
    it. *)
Definition usage : Type := Env * string * ElementAst.t.

Definition usage_event (u : usage) : event :=
  let '(env, fileName, element) := u in Usage env fileName element.

Definition record_of (u : usage) : IElementTracker.t :=
  let '(_, fileName, element) := u in
  IElementTracker.mk fileName element
    (ElementAst.inputs element ++ ElementAst.attrs element).

(** The tracker once [component] has been registered and the queue drained. *)
Definition resolved (component : IComponent.t) : t := mk [] (Some component).

(** [process] in two stages, for stating what does not depend on
    [fromElement]: the failures with the message as it stands after the first
    assignment to [result.message], and the qualifier the second assignment
    appends. *)
Definition unqualified (env : Env) (c : IComponent.t) (tracker : IElementTracker.t)
  : res (list IFailure.t) :=
  fmap (omap id)
       (mapM (λ check : Check,
                bind (check env (args c tracker)) (λ result,
                  Ok (option_map
                        (λ result,
                           IFailure.mk (IFailure.inputName result)
                             (IFailure.decorator result)
                             ("Component <"
                                +:+ ElementAst.name (IElementTracker.element tracker)
                                +:+ "> " +:+ IFailure.message result))
                        result)))
             (IComponent.checks c)).

Definition qualify (fromElement : bool) (tracker : IElementTracker.t)
    (f : IFailure.t) : IFailure.t :=
  IFailure.mk (IFailure.inputName f) (IFailure.decorator f)
    (IFailure.message f +:+
     (if fromElement then declared_in (IFailure.decorator f) else used_in tracker)).

(** The one evaluation of a usage against the registered component: during
    the drain of the queue ([fromElement = false]) or on arrival
    ([fromElement = true]). *)
Definition evaluate (fromElement : bool) (env : Env) (c : IComponent.t) (u : usage)
  : res (list IFailure.t) :=
  fmap (map (qualify fromElement (record_of u))) (unqualified env c (record_of u)).

End ComponentTracker.

(** ** Regular expressions

    The two regular expressions of the source are written with backtracking
    matcher combinators: a matcher takes the continuation for what follows it
    in the pattern and the remaining input, and answers with the first
    success in the order a backtracking engine tries the alternatives. *)

Module RegExp.

(** [\s], for code units up to 255. *)
Definition space (c : ascii) : bool :=
  bool_decide (nat_of_ascii c ∈ [9; 10; 11; 12; 13; 32; 160]%nat).

(** [.]: anything but a line terminator. *)
Definition dot (c : ascii) : bool :=
  negb (bool_decide (nat_of_ascii c ∈ [10; 13]%nat)).

Section Matcher.
Context {R : Type}.

Definition K : Type := string → option R.

(** A run of literal characters. *)
Fixpoint chars (lit : string) (k : K) (s : string) : option R :=
  match lit, s with
  | EmptyString, _ => k s
  | String a lit', String b s' => if decide (a = b) then chars lit' k s' else None
  | String _ _, EmptyString => None
  end.

(** [c+] for a character class, greedy: the longest run first. *)
Fixpoint plus (cls : ascii → bool) (k : K) (s : string) : option R :=
  match s with
  | String c s' =>
      if cls c then
        match plus cls k s' with
        | Some r => Some r
        | None => k s'
        end
      else None
  | EmptyString => None
  end.

(** [(c*?)] for a character class, lazy and capturing: the shortest run
    first; the continuation receives the captured text. *)
Fixpoint star_lazy_group (cls : ascii → bool) (k : string → K)
    (captured : string) (s : string) : option R :=
  match k captured s with
  | Some r => Some r
  | None =>
      match s with
      | String c s' =>
          if cls c then star_lazy_group cls k (captured +:+ String c EmptyString) s'
          else None
      | EmptyString => None
      end
  end.

(** [m?], greedy. *)
Definition opt (m : K → K) (k : K) : K :=
  λ s, match m k s with Some r => Some r | None => k s end.

(** [m1|m2] *)
Definition alt (m1 m2 : K → K) (k : K) : K :=
  λ s, match m1 k s with Some r => Some r | None => m2 k s end.

(** [$] without the [m] flag: the end of the input. *)
Definition eoi (k : K) : K :=
  λ s, match s with EmptyString => k s | String _ _ => None end.

(** An unanchored pattern is tried at every offset, leftmost first. *)
Fixpoint search (m : K) (s : string) : option R :=
  match m s with
  | Some r => Some r
  | None =>
      match s with
      | String _ s' => search m s'
      | EmptyString => None
      end
  end.

End Matcher.

End RegExp.

(** ** The skip-list *)

(** [/^ng\-.+/.test(name)]: the pattern is anchored at the start, so only
    offset 0 can match. *)
Definition ng_re_test (name : string) : bool :=
  bool_decide (is_Some
    (RegExp.chars "ng-" (RegExp.plus RegExp.dot (λ _, Some ())) name)).

(** [skippedElements]: string entries are [inl], the [RegExp] entry is [inr]
    and is represented by its [test] method. *)
Definition skippedElements : list (string + (string → bool)) :=
  map inl
    ["div"; "a"; "p"; "span"; "em"; "strong"; "i"; "b"; "ul"; "li"; "ol"; "header";
     "footer"; "nav"; "main"; "aside"; "footer"; "br"; "img"; "table"; "thead";
     "tbody"; "td"; "th"; "tr"]
  ++ [inr ng_re_test].

(** [skippedElements.indexOf(name) > -1]: [indexOf] compares with [===], so
    a string is found only among the string entries. *)
Definition skipped_literal (name : string) : bool :=
  existsb (λ s, match s with inl n => bool_decide (n = name) | inr _ => false end)
          skippedElements.

(** [skippedElements.some(s => s instanceof RegExp && s.test(name))] *)
Definition skipped_pattern (name : string) : bool :=
  existsb (λ s, match s with inl _ => false | inr test => test name end)
          skippedElements.

(** ** [class TemplateRequireInputTracker] *)

Module TemplateRequireInputTracker.

Record t : Type := mk {
  tags : gmap string ComponentTracker.t;
}.

(** A fresh tracker: [tags = Object.create(null)]. *)
Definition new : t := mk ∅.

(** [getByName(name)]: the tracker object stored under [name], created on
    first access, and the registry after that access. *)
Definition getByName (name : string) (this : t) : ComponentTracker.t * t :=
  match tags this !! name with
  | Some c => (c, this)
  | None => (ComponentTracker.new, mk (<[name := ComponentTracker.new]> (tags this)))
  end.

(** The tracker found by [getByName] is an object shared with the registry:
    what a method does to it is written back under the same key. *)
Definition store (name : string) (c : ComponentTracker.t) (this : t) : t :=
  mk (<[name := c]> (tags this)).

(** [addElement(fileName, element)] *)
Definition addElement (env : Env) (fileName : string) (element : ElementAst.t)
    (this : t) : res ret * t :=
  if skipped_literal (ElementAst.name element) then (Ok null, this)
  else if skipped_pattern (ElementAst.name element) then (Ok null, this)
  else
    let '(c, this1) := getByName (ElementAst.name element) this in
    let '(r, c') := ComponentTracker.addElement env fileName element c in
    (r, store (ElementAst.name element) c' this1).

(** [addComponent(name, options)] *)
Definition addComponent (env : Env) (name : string) (options : IComponent.t)
    (this : t) : res (list IFailure.t) * t :=
  let '(c, this1) := getByName name this in
  let '(r, c') := ComponentTracker.addComponent env options c in
  (r, store name c' this1).

End TemplateRequireInputTracker.

(** ** The walker over component classes, and the template visitor *)

Inductive Mode : Type := Tagged | All.

(** [getMode(options)]; the options are the strings of the rule's
    configuration array. *)
Definition getMode (options : list string) : Mode :=
  match options with
  | o :: _ => if decide (o = "all-without-defaults") then All else Tagged
  | [] => Tagged
  end.

Definition LF : ascii := "010"%char.

(** [requiredExpressionRe.exec(text)], reduced to what the source reads from
    the result: [None] for [null], otherwise capture group 1.  The pattern is
    [/@required\s+if\s+(.*?)(\*?\*\/|\n|$)/]. *)
Definition requiredExpressionRe_exec (text : string) : option string :=
  RegExp.search
    (RegExp.chars "@required"
      (RegExp.plus RegExp.space
        (RegExp.chars "if"
          (RegExp.plus RegExp.space
            (RegExp.star_lazy_group RegExp.dot
              (λ group1,
                 RegExp.alt
                   (λ k, RegExp.opt (RegExp.chars "*") (RegExp.chars "*/" k))
                   (RegExp.alt (RegExp.chars (String LF EmptyString)) RegExp.eoi)
                   (λ _, Some group1))
              "")))))
    text.

Module IPendingInput.
Record t : Type := mk {
  name : string;
  alias : string;
  required : bool;
  node : Decorator.t;
  match_ : option string;
}.
End IPendingInput.

(** [ts.PropertyDeclaration]: [name] is [name.getText()]; [initializer] is
    [None] when the member has no initializer. *)
Module PropertyDeclaration.
Record t : Type := mk {
  pos : Z;
  end_ : Z;
  name : string;
  initializer : option Expression;
}.
End PropertyDeclaration.

(** A failure handed to the lint framework: [createFailure(start, width,
    message)] by the template visitor, [addFailureAtNode(node, message)] by
    the walker. *)
Inductive RuleFailure : Type :=
| FailureAt (start width : Z) (message : string)
| FailureAtNode (node : Decorator.t) (message : string).

(** [`${input.match}`] *)
Definition of_nullable (s : option string) : string := default "null" s.

Module InputMetadataWalker.

(** The walker object ([Rule.apply] makes one for a source file) together
    with what it shares with the template visitor it drives: the tracker of
    the rule and the list of reported failures.  [sourceFile_text] and
    [options] are fixed at construction. *)
Record t : Type := mk {
  sourceFile_text : string;
  options : list string;
  tracker : TemplateRequireInputTracker.t;
  componentName : option string;
  inputs : list IPendingInput.t;
  failures : list RuleFailure;
}.

(** The walker [Rule.apply] constructs, attached to the rule's tracker. *)
Definition new (text : string) (options : list string)
    (tracker : TemplateRequireInputTracker.t) : t :=
  mk text options tracker None [] [].

Definition set_tracker (tr : TemplateRequireInputTracker.t) (this : t) : t :=
  mk (sourceFile_text this) (options this) tr (componentName this)
     (inputs this) (failures this).

Definition set_componentName (n : option string) (this : t) : t :=
  mk (sourceFile_text this) (options this) (tracker this) n
     (inputs this) (failures this).

Definition set_inputs (l : list IPendingInput.t) (this : t) : t :=
  mk (sourceFile_text this) (options this) (tracker this) (componentName this)
     l (failures this).

Definition add_failures (l : list RuleFailure) (this : t) : t :=
  mk (sourceFile_text this) (options this) (tracker this) (componentName this)
     (inputs this) (failures this ++ l).

(** [visitNgComponent(metadata)], up to the call of the base class (which
    goes on to visit the component's template). *)
Definition visitNgComponent (selector : option string) (this : t) : t :=
  set_componentName selector this.

(** The text [visitNgInput] scans: from the start of the member to the end
    of the line on which it ends. *)
Definition decoratorText (sourceText : string) (property : PropertyDeclaration.t)
  : string :=
  let start := PropertyDeclaration.pos property in
  let end_ :=
    PropertyDeclaration.end_ property
    + indexOf_char (slice_from sourceText (PropertyDeclaration.end_ property)) LF in
  slice sourceText start end_.

Definition inputAlias (property : PropertyDeclaration.t) (input : Decorator.t)
  : string :=
  match Decorator.arguments input with
  | StringLiteral text :: _ => text
  | _ => PropertyDeclaration.name property
  end.

Definition required_of (options : list string) (decoratorText : string)
    (property : PropertyDeclaration.t) : bool :=
  let required := includes decoratorText "@required" in
  if includes decoratorText "@required" then true
  else
    match getMode options with
    | All => bool_decide (PropertyDeclaration.initializer property = None)
    | Tagged => required
    end.

(** The object literal [visitNgInput] pushes. *)
Definition pendingInput (sourceText : string) (options : list string)
    (property : PropertyDeclaration.t) (input : Decorator.t) : IPendingInput.t :=
  let decoratorText := decoratorText sourceText property in
  let requiredExpr := requiredExpressionRe_exec decoratorText in
  IPendingInput.mk
    (PropertyDeclaration.name property)
    (inputAlias property input)
    (required_of options decoratorText property)
    input
    requiredExpr.

(** [visitNgInput(property, input, args)] *)
Definition visitNgInput (property : PropertyDeclaration.t) (input : Decorator.t)
    (this : t) : t :=
  set_inputs
    (inputs this ++ [pendingInput (sourceFile_text this) (options this) property input])
    this.

(** [createDefaultMatch(properties, input)] *)
Definition createDefaultMatch (properties : list string) (input : IPendingInput.t)
  : list bool → option string :=
  let i := indexOf properties (IPendingInput.name input) in
  λ args,
    if negb (truthy_at args i) then
      Some ("is missing required input `" +:+ IPendingInput.alias input +:+ "`")
    else None.

(** The [Error] constructed in the [catch] clause of [tryExec], as a function
    of its parts: the component name the walker holds when the error is
    caught, the input's name, the expression and the message of the error
    caught. *)
Definition directive_error (componentName : option string) (name expr cause : string)
  : exn :=
  Error ("Could not evaluate @required directive on " +:+ of_optional componentName
           +:+ "." +:+ name +:+ " `" +:+ expr +:+ "`: " +:+ cause).

Section Host.

(** [new Function(...properties, body)].  [inl cause]: the constructor threw
    an error whose [message] is [cause].  [inr fn]: the compiled function;
    applied to the flags, it throws an error with message [cause]
    ([inl cause]) or returns a value that is truthy or falsy ([inr b]). *)
Variable newFunction : list string → string → string + (list bool → string + bool).

(** [tryExec(fn)] of [createCustomMatch]; [componentName] is the value of
    [this.componentName] when the [catch] clause runs. *)
Definition tryExec {T} (componentName : option string) (input : IPendingInput.t)
    (outcome : string + T) : res T :=
  match outcome with
  | inr v => Ok v
  | inl err_message =>
      Throw (directive_error componentName (IPendingInput.name input)
               (of_nullable (IPendingInput.match_ input)) err_message)
  end.

(** [createCustomMatch(properties, input)], called while [this.componentName]
    is [componentName]; the returned closure reads the field again when it
    runs. *)
Definition createCustomMatch (componentName : option string)
    (properties : list string) (input : IPendingInput.t)
  : res (Env → list bool → res (option string)) :=
  bind (tryExec componentName input
          (newFunction properties
             ("return " +:+ of_nullable (IPendingInput.match_ input))))
    (λ fn,
       Ok (λ (env : Env) (args : list bool),
             bind (tryExec env input (fn args)) (λ v,
               if (v : bool) then
                 Ok (Some ("is missing input `" +:+ IPendingInput.alias input
                             +:+ "` required when `"
                             +:+ of_nullable (IPendingInput.match_ input) +:+ "`"))
               else Ok None))).

(** The callback of [this.inputs.map(...)] in [pushLast]: the check made for
    one input. *)
Definition makeCheck (componentName : option string) (properties : list string)
    (input : IPendingInput.t) : res Check :=
  if negb (IPendingInput.required input) then Ok (λ _ _, Ok None)
  else
    bind (if truthy_string (IPendingInput.match_ input)
          then createCustomMatch componentName properties input
          else Ok (λ _ args, Ok (createDefaultMatch properties input args)))
      (λ checker,
         Ok (λ (env : Env) (args : list bool),
               bind (checker env args) (λ errMessage,
                 match errMessage with
                 | Some (String _ _ as errMessage) =>
                     Ok (Some (IFailure.mk (IPendingInput.name input)
                                           (IPendingInput.node input)
                                           errMessage))
                 | Some EmptyString | None => Ok None
                 end))).

(** The [IComponent] literal [pushLast] passes to the tracker. *)
Definition makeComponent (componentName : option string)
    (inputs : list IPendingInput.t) : res IComponent.t :=
  let properties := map IPendingInput.name inputs in
  fmap (IComponent.mk properties)
       (mapM (makeCheck componentName properties) inputs).

(** [pushLast()].  [this.componentName], possibly still [undefined], is used
    as a property key of the registry. *)
Definition pushLast (this : t) : res () * t :=
  match inputs this with
  | [] => (Ok (), this)
  | _ :: _ =>
      match makeComponent (componentName this) (inputs this) with
      | Throw e => (Throw e, this)
      | Ok c =>
          let '(errs, tracker') :=
            TemplateRequireInputTracker.addComponent
              (componentName this) (of_optional (componentName this)) c
              (tracker this) in
          match errs with
          | Throw e => (Throw e, set_tracker tracker' this)
          | Ok errs =>
              (Ok (),
               set_inputs []
                 (add_failures
                    (map (λ err, FailureAtNode (IFailure.decorator err)
                                               (IFailure.message err)) errs)
                    (set_tracker tracker' this)))
          end
      end
  end.

(** [visitClassDeclaration(declaration)], up to the call of the base class. *)
Definition visitClassDeclaration (this : t) : res () * t := pushLast this.

(** [visitEndOfFileToken(node)] *)
Definition visitEndOfFileToken (this : t) : res () * t := pushLast this.

End Host.

(** [TemplateRequireInputsVisitor.visitElement(element, context)], up to the
    call of the base class; [fileName] is [this.getSourceFile().fileName] of
    the visitor.  Calling [forEach] on [null] or [undefined] is the
    runtime's [TypeError].  The checks that run here read the field
    [componentName] of the walker that built them; this record follows one
    walker, so it is that walker's field which is handed to them.  For a
    declaration built by a walker of another file on the same tracker the
    source reads the field of that other walker, which only the wording of
    an exception can show. *)
Definition visitElement (fileName : string) (element : ElementAst.t) (this : t)
  : res () * t :=
  let '(r, tracker') :=
    TemplateRequireInputTracker.addElement
      (componentName this) fileName element (tracker this) in
  let this' := set_tracker tracker' this in
  match r with
  | Throw e => (Throw e, this')
  | Ok (array failures) =>
      (Ok (),
       add_failures
         (map (λ failure,
                 FailureAt (ElementAst.sourceSpan_start_offset element)
                           (ElementAst.sourceSpan_end_offset element
                            - ElementAst.sourceSpan_start_offset element)
                           (IFailure.message failure))
              failures)
         this')
  | Ok null => (Throw (TypeError "Cannot read property 'forEach' of null"), this')
  | Ok undefined =>
      (Throw (TypeError "Cannot read property 'forEach' of undefined"), this')
  end.

(** *** Passes of the walker

    The calls the base classes make into the walker and its template
    visitor, in the order of a pass; the pass ends at the first exception. *)

Inductive call : Type :=
| VisitClassDeclaration
| VisitNgComponent (selector : option string)
| VisitNgInput (property : PropertyDeclaration.t) (input : Decorator.t)
| VisitElement (fileName : string) (element : ElementAst.t)
| VisitEndOfFileToken.

Definition dispatch (newFunction : list string → string → string + (list bool → string + bool))
    (c : call) (this : t) : res () * t :=
  match c with
  | VisitClassDeclaration => visitClassDeclaration newFunction this
  | VisitNgComponent selector => (Ok (), visitNgComponent selector this)
  | VisitNgInput property input => (Ok (), visitNgInput property input this)
  | VisitElement fileName element => visitElement fileName element this
  | VisitEndOfFileToken => visitEndOfFileToken newFunction this
  end.

Fixpoint walk (newFunction : list string → string → string + (list bool → string + bool))
    (cs : list call) (this : t) : res () * t :=
  match cs with
  | [] => (Ok (), this)
  | c :: cs' =>
      let '(r, this') := dispatch newFunction c this in
      match r with
      | Throw e => (Throw e, this')
      | Ok _ => walk newFunction cs' this'
      end
  end.

End InputMetadataWalker.

(** ** A small host for the examples

    The theorems below hold for every behaviour of [new Function].  The
    examples need one: this host compiles the bodies [return name] and
    [return !name] (for distinct parameter names that are no reserved
    words), rejects every other body as a syntax error, and lets a name that
    is not a parameter fail when the function runs, as a free variable
    without a global binding does. *)

Module SampleHost.

Definition ident_char (c : ascii) : bool :=
  let n := nat_of_ascii c in
  bool_decide ((48 ≤ n ≤ 57) ∨ (65 ≤ n ≤ 90) ∨ (97 ≤ n ≤ 122) ∨ n = 95 ∨ n = 36)%nat.

Fixpoint ident_chars (s : string) : bool :=
  match s with
  | EmptyString => true
  | String c s' => ident_char c && ident_chars s'
  end.

Definition identifier (s : string) : bool :=
  match s with
  | EmptyString => false
  | String c _ => negb (bool_decide (48 ≤ nat_of_ascii c ≤ 57)%nat) && ident_chars s
  end.

Definition variable (properties : list string) (name : string) (args : list bool)
  : string + bool :=
  if decide (indexOf properties name = -1) then inl (name +:+ " is not defined")
  else inr (truthy_at args (indexOf properties name)).

Definition newFunction (properties : list string) (body : string)
  : string + (list bool → string + bool) :=
  if String.prefix "return " body then
    let e := String.substring 7 (String.length body - 7) body in
    match e with
    | String "!" name =>
        if identifier name then
          inr (λ args, match variable properties name args with
                       | inl cause => inl cause
                       | inr b => inr (negb b)
                       end)
        else inl "Unexpected token"
    | _ =>
        if identifier e then inr (variable properties e)
        else inl "Unexpected token"
    end
  else inl "Unexpected token".

End SampleHost.

(** ** Concrete inputs used by the examples *)

Module Examples.

(** A member [foo] marked as required, in [foobar.component.ts]. *)
Definition foobar_text : string :=
  "@Input() public foo: number; // @required" +:+ String LF EmptyString.

Definition foo_property : PropertyDeclaration.t :=
  PropertyDeclaration.mk 0 28 "foo" None.

Definition foo_decorator : Decorator.t :=
  Decorator.mk [] 57 "foobar.component.ts".

Definition foo_input : IPendingInput.t :=
  InputMetadataWalker.pendingInput foobar_text ["tagged"] foo_property foo_decorator.

(** The component [pushLast] registers for that class. *)
Definition foobar : IComponent.t :=
  match InputMetadataWalker.makeComponent SampleHost.newFunction (Some "foobar")
          [foo_input] with
  | Ok c => c
  | Throw _ => IComponent.mk [] []
  end.

(** [<foobar></foobar>] on line 12 of [app.component.html], and the same
    usage with [foo] bound. *)
Definition bare : ElementAst.t := ElementAst.mk "foobar" [] [] 12 340 358.

Definition bound : ElementAst.t := ElementAst.mk "foobar" ["foo"] [] 14 400 429.

Definition bare_usage : ComponentTracker.usage :=
  (Some "foobar", "app.component.html", bare).

(** A second class registered under the same selector, with one input [bar]
    that is not required. *)
Definition bar_input : IPendingInput.t :=
  IPendingInput.mk "bar" "bar" false (Decorator.mk [] 91 "other.ts") None.

Definition foobar2 : IComponent.t :=
  match InputMetadataWalker.makeComponent SampleHost.newFunction (Some "foobar")
          [bar_input] with
  | Ok c => c
  | Throw _ => IComponent.mk [] []
  end.

(** A class with two inputs: [foo], not marked, and [bar], renamed to [baz]
    and required when [foo] is not supplied. *)
Definition cond_text : string :=
  "@Input() public foo: number;" +:+ String LF EmptyString
    +:+ "@Input('baz') public bar: number; // @required if !foo"
    +:+ String LF EmptyString.

Definition cond_foo_property : PropertyDeclaration.t :=
  PropertyDeclaration.mk 0 28 "foo" None.

Definition cond_bar_property : PropertyDeclaration.t :=
  PropertyDeclaration.mk 28 62 "bar" None.

Definition cond_foo_decorator : Decorator.t := Decorator.mk [] 0 "cond.component.ts".

Definition cond_bar_decorator : Decorator.t :=
  Decorator.mk [StringLiteral "baz"] 28 "cond.component.ts".

Definition cond_inputs : list IPendingInput.t :=
  [InputMetadataWalker.pendingInput cond_text ["tagged"] cond_foo_property
     cond_foo_decorator;
   InputMetadataWalker.pendingInput cond_text ["tagged"] cond_bar_property
     cond_bar_decorator].

Definition cond : IComponent.t :=
  match InputMetadataWalker.makeComponent SampleHost.newFunction (Some "cond")
          cond_inputs with
  | Ok c => c
  | Throw _ => IComponent.mk [] []
  end.

(** [<cond [bar]="1"></cond>]: [bar] is supplied, [foo] is not. *)
Definition cond_with_bar : IElementTracker.t :=
  let element := ElementAst.mk "cond" ["bar"] [] 3 40 65 in
  IElementTracker.mk "app.component.html" element ["bar"].

(** A member with an initializer, and the rule in either mode. *)
Definition default_text : string :=
  "@Input() public foo: number = 42;" +:+ String LF EmptyString.

Definition default_property : PropertyDeclaration.t :=
  PropertyDeclaration.mk 0 33 "foo" (Some OtherExpression).

(** [<div></div>], a tag of the skip-list. *)
Definition div : ElementAst.t := ElementAst.mk "div" [] [] 1 0 11.

(** A file with two classes.  Component [panel] has an input [foo] whose
    expression mentions a name that is no input; component [page], declared
    after it, uses [<panel></panel>] in its template. *)
Definition bogus_text : string :=
  "@Input() public foo: number; // @required if bogus" +:+ String LF EmptyString.

Definition bogus_decorator : Decorator.t := Decorator.mk [] 0 "two.ts".

Definition panel_usage : ElementAst.t := ElementAst.mk "panel" [] [] 0 0 15.

Definition two_classes : list InputMetadataWalker.call :=
  [InputMetadataWalker.VisitClassDeclaration;
   InputMetadataWalker.VisitNgComponent (Some "panel");
   InputMetadataWalker.VisitNgInput foo_property bogus_decorator;
   InputMetadataWalker.VisitClassDeclaration;
   InputMetadataWalker.VisitNgComponent (Some "page");
   InputMetadataWalker.VisitElement "two.ts" panel_usage].

(** The walker state in which component [panel] of that file has been
    visited and a usage [<panel></panel>] is waiting in the queue of its
    tag. *)
Definition panel_pending : InputMetadataWalker.t :=
  InputMetadataWalker.visitNgInput foo_property bogus_decorator
    (InputMetadataWalker.visitNgComponent (Some "panel")
       (InputMetadataWalker.new bogus_text ["tagged"]
          (TemplateRequireInputTracker.mk
             {[ "panel" := ComponentTracker.mk
                             [IElementTracker.mk "two.ts" panel_usage []] None ]}))).

(** The scenario of the rule's test "parses line comments": the template
    [<foobar></foobar>] of the component is visited first, then the member
    [foo], then the end of the file. *)
Definition test_element : ElementAst.t := ElementAst.mk "foobar" [] [] 0 0 17.

Definition test_decorator : Decorator.t := Decorator.mk [] 0 "file.ts".

Definition test_walker : InputMetadataWalker.t :=
  InputMetadataWalker.visitNgInput foo_property test_decorator
    (snd (InputMetadataWalker.visitElement "file.ts" test_element
            (InputMetadataWalker.visitNgComponent (Some "foobar")
               (InputMetadataWalker.new foobar_text ["tagged"]
                  TemplateRequireInputTracker.new)))).

End Examples.

(** ** Parts of the definitions above, named for the statements below *)

(** The tail of [requiredExpressionRe] behind the capture group,
    [(\*?\*\/|\n|$)]: what may follow the captured expression. *)
Definition after_expression (group1 : string) : RegExp.K :=
  RegExp.alt
    (λ k, RegExp.opt (RegExp.chars "*") (RegExp.chars "*/" k))
    (RegExp.alt (RegExp.chars (String LF EmptyString)) RegExp.eoi)
    (λ _, Some group1).

Definition CR : ascii := "013"%char.

(** The skip test of [TemplateRequireInputTracker.addElement]: either of its
    two conditions. *)
Definition skipped (name : string) : bool :=
  skipped_literal name || skipped_pattern name.

(** [base] holds the failures of the usage [u] against [D] up to the
    location qualifier, wherever the usage stands relative to the
    declaration ([fromElement]) and whatever component name the walker that
    built [D] holds when the usage is evaluated ([env]). *)
Definition base_failures (D : IComponent.t) (u : ComponentTracker.usage)
    (base : list IFailure.t) : Prop :=
  ∀ (fromElement : bool) (env : Env),
    ComponentTracker.evaluate fromElement env D u
    = Ok (map (ComponentTracker.qualify fromElement (ComponentTracker.record_of u)) base).

(** A tracker that does not hold a declaration and queued usages at once. *)
Definition settled (this : ComponentTracker.t) : Prop :=
  ComponentTracker.component this = None ∨ ComponentTracker.elementQueue this = [].

(** The registry seen through [getByName]: the tracker it hands out for a
    name (a new one when there is no entry yet), the declaration that
    tracker holds and the usages it has queued. *)
Module Registry.

Definition tracker_of (name : string) (this : TemplateRequireInputTracker.t)
  : ComponentTracker.t :=
  fst (TemplateRequireInputTracker.getByName name this).

Definition declaration_of (name : string) (this : TemplateRequireInputTracker.t)
  : option IComponent.t :=
  ComponentTracker.component (tracker_of name this).

Definition pending (name : string) (this : TemplateRequireInputTracker.t)
  : list IElementTracker.t :=
  ComponentTracker.elementQueue (tracker_of name this).

(** What reaches the registry during a pass, and a pass as far as the
    registry is concerned; as nothing in the source catches an exception, it
    ends at the first one. *)
Inductive event : Type :=
| Usage (env : Env) (fileName : string) (element : ElementAst.t)
| Declaration (env : Env) (name : string) (component : IComponent.t).

Definition step (ev : event) (this : TemplateRequireInputTracker.t)
  : res ret * TemplateRequireInputTracker.t :=
  match ev with
  | Usage env fileName element =>
      TemplateRequireInputTracker.addElement env fileName element this
  | Declaration env name c =>
      let '(r, this') := TemplateRequireInputTracker.addComponent env name c this in
      (fmap array r, this')
  end.

Fixpoint run (evs : list event) (this : TemplateRequireInputTracker.t)
  : res (list ret) * TemplateRequireInputTracker.t :=
  match evs with
  | [] => (Ok [], this)
  | ev :: evs' =>
      let '(r, this') := step ev this in
      match r with
      | Throw e => (Throw e, this')
      | Ok x =>
          let '(rs, this'') := run evs' this' in
          (fmap (cons x) rs, this'')
      end
  end.

(** The event as the tracker of tag [name] sees it, if it goes there:
    declarations under that name, and usages of that name unless the name is
    on the skip-list. *)
Definition project (name : string) (ev : event) : option ComponentTracker.event :=
  match ev with
  | Usage env fileName element =>
      if decide (ElementAst.name element = name) then
        if skipped name then None
        else Some (ComponentTracker.Usage env fileName element)
      else None
  | Declaration env name' c =>
      if decide (name' = name) then Some (ComponentTracker.Declaration env c)
      else None
  end.

(** The answers of a pass to the events that went to tag [name]. *)
Definition answers (name : string) (evs : list event) (rs : list ret) : list ret :=
  omap (λ '(ev, r), match project name ev with Some _ => Some r | None => None end)
       (zip evs rs).

End Registry.

(** Concrete inputs for the witnesses of the further properties. *)
Module Examples2.

(** A pass over two tags and a skip-listed one: a usage of [foobar], a
    [<div>], the declaration of [cond], the declaration of [foobar], and a
    usage of [foobar] that binds [foo]. *)
Definition mixed_pass : list Registry.event :=
  [Registry.Usage (Some "app") "app.component.html" Examples.bare;
   Registry.Usage (Some "app") "app.component.html" Examples.div;
   Registry.Declaration (Some "cond") "cond" Examples.cond;
   Registry.Declaration (Some "foobar") "foobar" Examples.foobar;
   Registry.Usage (Some "page") "page.component.html" Examples.bound].

Definition mixed_answers : list ret :=
  [undefined; null; array [];
   array [IFailure.mk "foo" Examples.foo_decorator
            "Component <foobar> is missing required input `foo` (used in app.component.html:12)"];
   array []].

(** A walker that has visited the member [foo] of a class without having
    visited a component. *)
Definition nameless_walker : InputMetadataWalker.t :=
  InputMetadataWalker.visitNgInput Examples.foo_property Examples.foo_decorator
    (InputMetadataWalker.new Examples.foobar_text ["tagged"]
       TemplateRequireInputTracker.new).

(** [<foobar foo="1" foo="2"></foobar>] written with attributes, where
    [Examples.bound] uses a binding. *)
Definition bound_by_attribute : ElementAst.t :=
  ElementAst.mk "foobar" [] ["foo"; "foo"] 14 400 429.

(** A usage of [foobar] before its declaration and one after it, the second
    met while the walker is visiting component [page]; and the answers of
    the tracker to the three events. *)
Definition later_usage : ComponentTracker.usage :=
  (Some "page", "page.component.html", Examples.bare).

Definition around_answers : list ret :=
  [undefined;
   array [IFailure.mk "foo" Examples.foo_decorator
            "Component <foobar> is missing required input `foo` (used in app.component.html:12)"];
   array [IFailure.mk "foo" Examples.foo_decorator
            "Component <foobar> is missing required input `foo` (declared in foobar.component.ts:57)"]].

(** The walker of the test scenario after the end of the file: [foobar] is
    declared.  [test_component] is the declaration it has registered. *)
Definition declared_walker : InputMetadataWalker.t :=
  snd (InputMetadataWalker.visitEndOfFileToken SampleHost.newFunction
         Examples.test_walker).

Definition test_inputs : list IPendingInput.t :=
  [InputMetadataWalker.pendingInput Examples.foobar_text ["tagged"]
     Examples.foo_property Examples.test_decorator].

Definition test_component : IComponent.t :=
  match InputMetadataWalker.makeComponent SampleHost.newFunction (Some "foobar")
          test_inputs with
  | Ok c => c
  | Throw _ => IComponent.mk [] []
  end.

End Examples2.

(** * Properties *)

(** ** Exceptions and arrays *)

Lemma bind_Ok_inv {A B} (r : res A) (k : A → res B) (b : B) :
  bind r k = Ok b → ∃ a, r = Ok a ∧ k a = Ok b.
Proof. destruct r as [a|e]; simpl; [eauto | discriminate]. Qed.

Lemma fmap_Ok_inv {A B} (f : A → B) (r : res A) (b : B) :
  fmap f r = Ok b → ∃ a, r = Ok a ∧ b = f a.
Proof.
  intros H. apply bind_Ok_inv in H as (a & -> & H). exists a. split; congruence.
Qed.

Lemma fmap_fmap {A B C} (f : A → B) (g : B → C) (r : res A) :
  fmap g (fmap f r) = fmap (g ∘ f) r.
Proof. by destruct r. Qed.

Lemma mapM_app {A B} (f : A → res B) (xs ys : list A) :
  mapM f (xs ++ ys) =
  bind (mapM f xs) (λ xs', bind (mapM f ys) (λ ys', Ok (xs' ++ ys'))).
Proof.
  induction xs as [|x xs IH]; simpl.
  - by destruct (mapM f ys).
  - destruct (f x) as [y|e]; simpl; [|done].
    rewrite IH. destruct (mapM f xs) as [xs'|e]; simpl; [|done].
    by destruct (mapM f ys).
Qed.

Lemma mapM_ext {A B} (f g : A → res B) (xs : list A) :
  (∀ x, x ∈ xs → f x = g x) → mapM f xs = mapM g xs.
Proof.
  induction xs as [|x xs IH]; intros H; simpl; [done|].
  rewrite (H x) by left. rewrite IH; [done|].
  intros y Hy. apply H. by right.
Qed.

Lemma mapM_length {A B} (f : A → res B) (xs : list A) (ys : list B) :
  mapM f xs = Ok ys → length ys = length xs.
Proof.
  revert ys. induction xs as [|x xs IH]; intros ys; simpl.
  - by intros [= <-].
  - intros H. apply bind_Ok_inv in H as (y & _ & H).
    apply bind_Ok_inv in H as (ys' & Hys & [= <-]). simpl. by rewrite (IH ys').
Qed.

(** The element a successful [map] leaves at an index is the callback's
    result on the element that was there. *)
Lemma mapM_lookup {A B} (f : A → res B) (xs : list A) (ys : list B) (i : nat) (x : A) :
  mapM f xs = Ok ys → xs !! i = Some x → ∃ y, ys !! i = Some y ∧ f x = Ok y.
Proof.
  revert ys i. induction xs as [|x' xs IH]; intros ys i; simpl; [by intros _ ?|].
  intros H Hx. apply bind_Ok_inv in H as (y & Hy & H).
  apply bind_Ok_inv in H as (ys' & Hys & [= <-]).
  destruct i as [|i]; simpl in *.
  - injection Hx as ->. eauto.
  - eauto.
Qed.

Lemma mapM_elem_of {A B} (f : A → res B) (xs : list A) (ys : list B) (y : B) :
  mapM f xs = Ok ys → y ∈ ys → ∃ x, x ∈ xs ∧ f x = Ok y.
Proof.
  revert ys. induction xs as [|x xs IH]; intros ys; simpl.
  - intros [= <-] Hy. by apply elem_of_nil in Hy.
  - intros H Hy. apply bind_Ok_inv in H as (y' & Hy' & H).
    apply bind_Ok_inv in H as (ys' & Hys & [= <-]).
    apply elem_of_cons in Hy as [->|Hy].
    + exists x. split; [left|done].
    + destruct (IH ys' Hys Hy) as (x0 & ? & ?). exists x0. split; [by right|done].
Qed.

(** The first callback that throws decides the outcome of [map]. *)
Lemma mapM_throw {A B} (f : A → res B) (xs : list A) (i : nat) (x : A) (e : exn) :
  xs !! i = Some x → f x = Throw e →
  (∀ j y, (j < i)%nat → xs !! j = Some y → ∃ z, f y = Ok z) →
  mapM f xs = Throw e.
Proof.
  revert i. induction xs as [|x' xs IH]; intros i Hi Hx Hbefore; [done|].
  destruct i as [|i]; simpl in *.
  - injection Hi as ->. by rewrite Hx.
  - destruct (Hbefore 0%nat x' ltac:(lia) eq_refl) as [z ->]. simpl.
    rewrite (IH i Hi Hx); [done|].
    intros j y Hj Hy. apply (Hbefore (S j) y); [lia|done].
Qed.

Lemma indexOf_ge {A} `{EqDecision A} (xs : list A) (x : A) : (-1 ≤ indexOf xs x)%Z.
Proof.
  induction xs as [|y xs IH]; simpl; [lia|].
  destruct (decide (y = x)); [lia|]. destruct (decide (indexOf xs x = -1)); lia.
Qed.

Lemma indexOf_found {A} `{EqDecision A} (xs : list A) (x : A) :
  (indexOf xs x > -1)%Z ↔ x ∈ xs.
Proof.
  induction xs as [|y xs IH]; simpl.
  - split; [lia|]. intros H. by apply elem_of_nil in H.
  - pose proof (indexOf_ge xs x).
    destruct (decide (y = x)) as [->|Hne].
    + split; [intros _; left | lia].
    + destruct (decide (indexOf xs x = -1)) as [Heq|Hneq].
      * split; [lia|]. intros [?|Hin]%elem_of_cons; [congruence|].
        apply IH in Hin. lia.
      * split; [|lia]. intros _. right. apply IH. lia.
Qed.

(** [xs[xs.indexOf(x)]] is [x] when [x] occurs in [xs]. *)
Lemma indexOf_index {A} `{EqDecision A} (xs : list A) (x : A) :
  x ∈ xs → index xs (indexOf xs x) = Some x.
Proof.
  unfold index. induction xs as [|y xs IH]; simpl.
  - intros H. by apply elem_of_nil in H.
  - intros Hin. pose proof (indexOf_ge xs x).
    destruct (decide (y = x)) as [->|Hne]; [done|].
    apply elem_of_cons in Hin as [?|Hin]; [congruence|].
    pose proof (proj2 (indexOf_found xs x) Hin).
    destruct (decide (indexOf xs x = -1)); [lia|].
    specialize (IH Hin).
    destruct (decide (indexOf xs x < 0)); [lia|].
    destruct (decide (indexOf xs x + 1 < 0)); [lia|].
    replace (Z.to_nat (indexOf xs x + 1)) with (S (Z.to_nat (indexOf xs x))) by lia.
    done.
Qed.

(** ** The tracker of one tag *)

Section ComponentTrackerFacts.
Import ComponentTracker.

Lemma run_app (evs1 evs2 : list event) (this : t) :
  run (evs1 ++ evs2) this =
  let '(r1, this1) := run evs1 this in
  match r1 with
  | Throw e => (Throw e, this1)
  | Ok xs =>
      let '(r2, this2) := run evs2 this1 in
      (fmap (app xs) r2, this2)
  end.
Proof.
  revert this. induction evs1 as [|ev evs1 IH]; intros this; simpl.
  - destruct (run evs2 this) as [[ys|e] this2]; done.
  - destruct (step ev this) as [[x|e] this']; [|done].
    rewrite IH. destruct (run evs1 this') as [[xs|e] this1]; simpl; [|done].
    destruct (run evs2 this1) as [[ys|e] this2]; done.
Qed.

(** Before a declaration, usages only lengthen the queue. *)
Lemma run_usages_unresolved (us : list usage) (queue : list IElementTracker.t) :
  run (map usage_event us) (mk queue None) =
  (Ok (map (λ _, undefined) us), mk (queue ++ map record_of us) None).
Proof.
  revert queue. induction us as [|[[env f] e] us IH]; intros queue; simpl.
  - by rewrite app_nil_r.
  - rewrite IH. simpl. by rewrite <- app_assoc.
Qed.

(** After a declaration, each usage is processed on arrival and the tracker
    stays as it is. *)
Lemma run_usages_resolved (us : list usage) (c : IComponent.t) :
  run (map usage_event us) (resolved c) =
  (fmap (map array)
        (mapM (λ u : usage, process u.1.1 (resolved c) (record_of u) true) us),
   resolved c).
Proof.
  induction us as [|[[env f] e] us IH]; simpl; [done|].
  destruct (process env (resolved c) _ true) as [fs|err]; simpl; [|done].
  rewrite IH. simpl. by case (mapM _ us).
Qed.

Lemma mapM_map {A B C} (g : A → B) (f : B → res C) (xs : list A) :
  mapM f (map g xs) = mapM (f ∘ g) xs.
Proof.
  induction xs as [|x xs IH]; simpl; [done|]. by rewrite IH.
Qed.

(** [fromElement] decides the qualifier and nothing else. *)
Lemma process_qualify (env : Env) (c : IComponent.t) (tracker : IElementTracker.t)
    (fromElement : bool) :
  process env (resolved c) tracker fromElement =
  fmap (map (qualify fromElement tracker)) (unqualified env c tracker).
Proof.
  unfold process, unqualified. simpl.
  generalize (args c tracker) as a. intros a.
  induction (IComponent.checks c) as [|check checks IH]; simpl; [done|].
  unfold process_check at 1.
  destruct (check env a) as [[result|]|err]; simpl; [| |done].
  - revert IH.
    destruct (mapM (process_check env tracker fromElement a) checks) as [l|err];
      destruct (mapM _ checks) as [l'|err']; simpl; try done.
    intros [= Heq]. unfold omap in Heq. by rewrite Heq.
  - revert IH.
    destruct (mapM (process_check env tracker fromElement a) checks) as [l|err];
      destruct (mapM _ checks) as [l'|err']; simpl; done.
Qed.

End ComponentTrackerFacts.

Section ComponentTrackerClaims.
Import ComponentTracker.

(** A run with one declaration among the usages of its tag, for any
    component: the usages before the declaration are answered with
    [undefined] and evaluated in order when it is registered, the usages
    after it are evaluated on arrival, and the first exception ends the
    run. *)
Lemma run_around_declaration (envD : Env) (D : IComponent.t) (us1 us2 : list usage) :
  fst (run (map usage_event us1 ++ Declaration envD D :: map usage_event us2) new) =
  bind (mapM (evaluate false envD D) us1) (λ drained,
    bind (mapM (λ u, evaluate true u.1.1 D u) us2) (λ later,
      Ok (map (λ _, undefined) us1 ++ array (concat drained) :: map array later))).
Proof.
  assert (Hdrain : mapM (λ item, process envD (mk [] (Some D)) item false)
                         (map record_of us1)
                    = mapM (evaluate false envD D) us1).
  { rewrite mapM_map. apply mapM_ext. intros u _.
    apply (process_qualify envD D (record_of u) false). }
  assert (Hlater : mapM (λ u : usage, process u.1.1 (resolved D) (record_of u) true) us2
                   = mapM (λ u, evaluate true u.1.1 D u) us2).
  { apply mapM_ext. intros u _. apply (process_qualify u.1.1 D (record_of u) true). }
  rewrite run_app. unfold new. rewrite run_usages_unresolved. simpl.
  rewrite Hdrain. destruct (mapM _ us1) as [drained|err]; simpl; [|done].
  pose proof (run_usages_resolved us2 D) as Hrun.
  rewrite Hlater in Hrun. unfold resolved in Hrun. rewrite Hrun. simpl.
  match goal with |- context [mapM ?f us2] => by destruct (mapM f us2) end.
Qed.

(** C1 as stated fails: the same declaration and the same usage report
    different message texts in the two orders. *)
Lemma declaration_position_changes_message :
  reported [usage_event Examples.bare_usage; Declaration (Some "foobar") Examples.foobar] new
  = Ok [IFailure.mk "foo" Examples.foo_decorator
          "Component <foobar> is missing required input `foo` (used in app.component.html:12)"]
  ∧ reported [Declaration (Some "foobar") Examples.foobar; usage_event Examples.bare_usage] new
  = Ok [IFailure.mk "foo" Examples.foo_decorator
          "Component <foobar> is missing required input `foo` (declared in foobar.component.ts:57)"]
  ∧ ¬ (∀ f : IFailure.t,
         f ∈ [IFailure.mk "foo" Examples.foo_decorator
                "Component <foobar> is missing required input `foo` (used in app.component.html:12)"]
         ↔ f ∈ [IFailure.mk "foo" Examples.foo_decorator
                  "Component <foobar> is missing required input `foo` (declared in foobar.component.ts:57)"]).
Proof.
  split; [by vm_compute|]. split; [by vm_compute|].
  intros H.
  pose proof (proj1 (H _) (list_elem_of_here _ _)) as Hin.
  apply list_elem_of_singleton in Hin. discriminate Hin.
Qed.

(** Where a failure returned by [process] comes from. *)
Lemma process_elem_of (env : Env) (c : IComponent.t) (tracker : IElementTracker.t)
    (fromElement : bool) (fs : list IFailure.t) (f : IFailure.t) :
  process env (resolved c) tracker fromElement = Ok fs → f ∈ fs →
  ∃ check result,
    check ∈ IComponent.checks c
    ∧ check env (args c tracker) = Ok (Some result)
    ∧ f = IFailure.mk (IFailure.inputName result) (IFailure.decorator result)
            (("Component <" +:+ ElementAst.name (IElementTracker.element tracker)
                +:+ "> " +:+ IFailure.message result)
             +:+ (if fromElement then declared_in (IFailure.decorator result)
                  else used_in tracker)).
Proof.
  unfold process. simpl. intros H Hf.
  apply fmap_Ok_inv in H as (l & Hl & ->).
  apply list_elem_of_omap in Hf as (o & Ho & Hid). simpl in Hid. subst o.
  destruct (mapM_elem_of _ _ _ _ Hl Ho) as (check & Hcheck & Hres).
  exists check. unfold process_check in Hres.
  apply bind_Ok_inv in Hres as ([result|] & Hr & Hres); [|discriminate].
  exists result. injection Hres as <-. done.
Qed.

(** C2 (amended).  Every failure message starts with [Component <tag>],
    where [tag] is the name of the usage element, followed by the message
    of the check.  The location qualifier that ends it names the other site:
    for a usage evaluated on arrival it is [(declared in <file>:<pos>)] with
    the file and position of the input's decorator; for a usage drained from
    the queue by the declaration it is [(used in <file>:<line>)] with the
    usage's own file and line. *)
Theorem qualifier_names_other_site (ev : event) (this : t) (r : ret) (this' : t)
    (f : IFailure.t) :
  step ev this = (Ok r, this') → f ∈ failures_of r →
  ∃ (c : IComponent.t) (tracker : IElementTracker.t) (check : Check)
    (result : IFailure.t),
    check ∈ IComponent.checks c
    ∧ IFailure.inputName f = IFailure.inputName result
    ∧ IFailure.decorator f = IFailure.decorator result
    ∧ match ev with
      | Usage env fileName element =>
          component this = Some c
          ∧ tracker = IElementTracker.mk fileName element
                        (ElementAst.inputs element ++ ElementAst.attrs element)
          ∧ check env (args c tracker) = Ok (Some result)
          ∧ IFailure.message f =
              ("Component <" +:+ ElementAst.name element +:+ "> "
                 +:+ IFailure.message result)
              +:+ declared_in (IFailure.decorator result)
      | Declaration env c' =>
          c = c'
          ∧ tracker ∈ elementQueue this
          ∧ check env (args c tracker) = Ok (Some result)
          ∧ IFailure.message f =
              ("Component <" +:+ ElementAst.name (IElementTracker.element tracker)
                 +:+ "> " +:+ IFailure.message result)
              +:+ used_in tracker
      end.
Proof.
  destruct ev as [env fileName element|env c]; simpl.
  - unfold addElement. destruct this as [queue [c|]]; simpl.
    + intros [= Hp <-] Hf. apply fmap_Ok_inv in Hp as (fs & Hp & ->). simpl in Hf.
      destruct (process_elem_of _ _ _ _ _ _ Hp Hf) as (check & result & ? & ? & ->).
      exists c, (IElementTracker.mk fileName element
                   (ElementAst.inputs element ++ ElementAst.attrs element)),
             check, result. done.
    + intros [= <- <-] Hf. simpl in Hf. by apply elem_of_nil in Hf.
  - intros [= Hp <-] Hf. apply fmap_Ok_inv in Hp as (fs & Hp & ->). simpl in Hf.
    apply fmap_Ok_inv in Hp as (items & Hitems & ->).
    apply list_elem_of_In, in_concat in Hf as (l & Hl & Hf).
    apply list_elem_of_In in Hl, Hf.
    destruct (mapM_elem_of _ _ _ _ Hitems Hl) as (tracker & Htracker & Hp).
    destruct (process_elem_of _ _ _ _ _ _ Hp Hf) as (check & result & ? & ? & ->).
    exists c, tracker, check, result. done.
Qed.

Lemma qualifier_names_other_site_witness :
  ∃ (c : IComponent.t) (tracker : IElementTracker.t) (check : Check)
    (result : IFailure.t),
    check ∈ IComponent.checks c
    ∧ "foo" = IFailure.inputName result
    ∧ Examples.foo_decorator = IFailure.decorator result
    ∧ c = Examples.foobar
    ∧ tracker ∈ [record_of Examples.bare_usage]
    ∧ check (Some "foobar") (args c tracker) = Ok (Some result)
    ∧ "Component <foobar> is missing required input `foo` (used in app.component.html:12)" =
        ("Component <" +:+ ElementAst.name (IElementTracker.element tracker)
           +:+ "> " +:+ IFailure.message result)
        +:+ used_in tracker.
Proof.
  apply (qualifier_names_other_site
           (Declaration (Some "foobar") Examples.foobar)
           (mk [record_of Examples.bare_usage] None)
           (array [IFailure.mk "foo" Examples.foo_decorator
                     "Component <foobar> is missing required input `foo` (used in app.component.html:12)"])
           (resolved Examples.foobar)
           (IFailure.mk "foo" Examples.foo_decorator
              "Component <foobar> is missing required input `foo` (used in app.component.html:12)")).
  - vm_compute. reflexivity.
  - simpl. left.
Defined.

(** C2 as stated fails: a usage that arrives after the declaration of its
    tag is reported with the declaration's file and position, not with its
    own file and line. *)
Lemma arrival_after_declaration_is_not_used_in :
  fst (addElement (Some "foobar") "app.component.html" Examples.bare
         (resolved Examples.foobar))
  = Ok (array [IFailure.mk "foo" Examples.foo_decorator
                 "Component <foobar> is missing required input `foo` (declared in foobar.component.ts:57)"])
  ∧ "Component <foobar> is missing required input `foo` (declared in foobar.component.ts:57)"
    ≠ "Component <foobar> is missing required input `foo`"
        +:+ used_in (record_of Examples.bare_usage).
Proof. split; [by vm_compute | by vm_compute]. Qed.

(** C3 (amended).  A tracker holds one declaration at a time and, once it
    holds one, never returns to holding none; but a declaration registered
    for a tag that already has one takes its place: from then on the
    tracker holds the later declaration, and every usage is evaluated
    against it. *)
Theorem later_declaration_replaces (env1 env2 : Env) (c1 c2 : IComponent.t)
    (this : t) (us : list usage) :
  let this1 := snd (run (map usage_event us) (snd (addComponent env1 c1 this))) in
  let this2 := snd (addComponent env2 c2 this1) in
  component this1 = Some c1
  ∧ component this2 = Some c2
  ∧ ∀ (env : Env) (fileName : string) (element : ElementAst.t),
      addElement env fileName element this2 =
      (fmap array
         (process env (resolved c2)
            (IElementTracker.mk fileName element
               (ElementAst.inputs element ++ ElementAst.attrs element))
            true),
       this2).
Proof.
  simpl. change (mk [] (Some c1)) with (resolved c1).
  rewrite run_usages_resolved. simpl. repeat split.
Qed.

(** C3 as stated fails: after a second declaration for the tag, the checks
    of the first are no longer applied; the same usage that the first
    declaration alone rejects passes. *)
Lemma first_declaration_does_not_stay :
  fst (addElement (Some "foobar") "app.component.html" Examples.bare
         (snd (addComponent (Some "foobar") Examples.foobar new)))
  = Ok (array [IFailure.mk "foo" Examples.foo_decorator
                 "Component <foobar> is missing required input `foo` (declared in foobar.component.ts:57)"])
  ∧ fst (addElement (Some "foobar") "app.component.html" Examples.bare
           (snd (addComponent (Some "foobar") Examples.foobar2
                   (snd (addComponent (Some "foobar") Examples.foobar new)))))
    = Ok (array []).
Proof. split; by vm_compute. Qed.

End ComponentTrackerClaims.

(** ** The checks the walker builds *)

Section WalkerFacts.
Import InputMetadataWalker.

Variable newFunction : list string → string → string + (list bool → string + bool).

(** The check at an index of a registered component is the one made for the
    input at that index, with the names of all inputs as [properties]. *)
Lemma makeComponent_lookup (cn : option string) (inputs : list IPendingInput.t)
    (c : IComponent.t) (i : nat) (input : IPendingInput.t) :
  makeComponent newFunction cn inputs = Ok c → inputs !! i = Some input →
  IComponent.properties c = map IPendingInput.name inputs
  ∧ ∃ check, IComponent.checks c !! i = Some check
             ∧ makeCheck newFunction cn (map IPendingInput.name inputs) input = Ok check.
Proof.
  unfold makeComponent. intros H Hi.
  apply fmap_Ok_inv in H as (checks & Hchecks & ->). simpl. split; [done|].
  apply (mapM_lookup _ _ _ _ _ Hchecks Hi).
Qed.

(** The flag of the presence vector at the index of an input, and the flag
    [createDefaultMatch] reads through [properties.indexOf(input.name)], are
    the same: whether the usage supplies a property of that name. *)
Lemma args_at_input (c : IComponent.t) (tracker : IElementTracker.t)
    (inputs : list IPendingInput.t) (i : nat) (input : IPendingInput.t) :
  IComponent.properties c = map IPendingInput.name inputs →
  inputs !! i = Some input →
  let supplied :=
    bool_decide (IPendingInput.name input ∈ IElementTracker.properties tracker) in
  ComponentTracker.args c tracker !! i = Some supplied
  ∧ truthy_at (ComponentTracker.args c tracker)
      (indexOf (map IPendingInput.name inputs) (IPendingInput.name input)) = supplied.
Proof.
  intros Hprops Hi supplied.
  assert (Hflag : ∀ p, bool_decide (indexOf (IElementTracker.properties tracker) p > -1)%Z
                       = bool_decide (p ∈ IElementTracker.properties tracker)).
  { intros p. apply bool_decide_ext, indexOf_found. }
  assert (Hname : map IPendingInput.name inputs !! i = Some (IPendingInput.name input)).
  { change (map IPendingInput.name inputs) with (IPendingInput.name <$> inputs).
    by rewrite list_lookup_fmap, Hi. }
  assert (Hin : IPendingInput.name input ∈ map IPendingInput.name inputs).
  { apply list_elem_of_lookup. eauto. }
  pose proof (indexOf_index _ _ Hin) as Hidx.
  unfold ComponentTracker.args, truthy_at. rewrite Hprops.
  set (props := map IPendingInput.name inputs) in *.
  assert (Hmap : ∀ j p, props !! j = Some p →
            map (λ property,
                   bool_decide (indexOf (IElementTracker.properties tracker) property > -1)%Z)
                props !! j
            = Some (bool_decide (p ∈ IElementTracker.properties tracker))).
  { intros j p Hj. change (map ?f props) with (f <$> props).
    rewrite list_lookup_fmap, Hj. simpl. by rewrite Hflag. }
  split; [by apply Hmap|].
  unfold index in *.
  destruct (decide (indexOf props (IPendingInput.name input) < 0)%Z); [discriminate|].
  by rewrite (Hmap _ _ Hidx).
Qed.

Lemma chars_prefix {R} (lit : string) (k : RegExp.K) (s : string) (r : R) :
  RegExp.chars lit k s = Some r → String.prefix lit s = true.
Proof.
  revert s. induction lit as [|a lit IH]; intros s; simpl.
  - by destruct s.
  - destruct s as [|b s]; [done|].
    destruct (decide (a = b)) as [->|Hne]; [|done].
    intros H. simpl. destruct (Ascii.ascii_dec b b) as [_|Hbb]; [by apply IH | by destruct Hbb].
Qed.

Lemma includes_here (s lit : string) :
  String.prefix lit s = true → includes s lit = true.
Proof. intros H. destruct s; cbn [includes]; by rewrite H. Qed.

Lemma search_includes {R} (lit : string) (k : RegExp.K) (s : string) (r : R) :
  RegExp.search (RegExp.chars lit k) s = Some r → includes s lit = true.
Proof.
  induction s as [|a s IH]; cbn [RegExp.search].
  - destruct (RegExp.chars lit k "") eqn:E; [|done].
    intros _. by apply chars_prefix, includes_here in E.
  - destruct (RegExp.chars lit k (String a s)) eqn:E.
    + intros _. by apply chars_prefix, includes_here in E.
    + intros H. cbn [includes]. rewrite (IH H). apply orb_true_r.
Qed.

(** An expression is only found behind the marker: an input with an
    expression is marked as required. *)
Lemma expression_implies_required (sourceText : string) (options : list string)
    (property : PropertyDeclaration.t) (input : Decorator.t) (expr : string) :
  IPendingInput.match_ (pendingInput sourceText options property input) = Some expr →
  IPendingInput.required (pendingInput sourceText options property input) = true.
Proof.
  unfold pendingInput. simpl. unfold requiredExpressionRe_exec, required_of.
  intros H. apply search_includes in H. by rewrite H.
Qed.

(** C4.  The check of an input that is required without an expression
    fails exactly when the flag of the presence vector at the input's index
    is false, and the failure reads [is missing required input `<alias>`],
    [<alias>] being the decorator's first argument when that is a string
    literal and the member's name otherwise. *)
Theorem required_input_check (cn : option string) (sourceText : string)
    (options : list string) (property : PropertyDeclaration.t) (dec : Decorator.t)
    (inputs : list IPendingInput.t) (c : IComponent.t) (i : nat) :
  let input := pendingInput sourceText options property dec in
  inputs !! i = Some input →
  makeComponent newFunction cn inputs = Ok c →
  IPendingInput.required input = true →
  truthy_string (IPendingInput.match_ input) = false →
  ∃ check : Check,
    IComponent.checks c !! i = Some check
    ∧ ∀ (env : Env) (tracker : IElementTracker.t),
        ∃ present : bool,
          ComponentTracker.args c tracker !! i = Some present
          ∧ check env (ComponentTracker.args c tracker) =
            Ok (if present then None
                else Some (IFailure.mk (PropertyDeclaration.name property) dec
                             ("is missing required input `"
                                +:+ match Decorator.arguments dec with
                                    | StringLiteral text :: _ => text
                                    | _ => PropertyDeclaration.name property
                                    end
                                +:+ "`"))).
Proof.
  intros input Hi Hc Hreq Hmatch.
  destruct (makeComponent_lookup _ _ _ _ _ Hc Hi) as (Hprops & check & Hcheck & Hmake).
  exists check. split; [done|]. intros env tracker.
  destruct (args_at_input c tracker inputs i input Hprops Hi) as [Hflag Hread].
  eexists. split; [exact Hflag|].
  unfold makeCheck in Hmake. rewrite Hreq, Hmatch in Hmake. simpl in Hmake.
  injection Hmake as <-. simpl.
  unfold createDefaultMatch. rewrite Hread.
  by destruct (bool_decide _).
Qed.

End WalkerFacts.

Lemma required_input_check_witness :
  ∃ check : Check,
    IComponent.checks Examples.foobar !! 0%nat = Some check
    ∧ ∀ (env : Env) (tracker : IElementTracker.t),
        ∃ present : bool,
          ComponentTracker.args Examples.foobar tracker !! 0%nat = Some present
          ∧ check env (ComponentTracker.args Examples.foobar tracker) =
            Ok (if present then None
                else Some (IFailure.mk "foo" Examples.foo_decorator
                             ("is missing required input `" +:+ "foo" +:+ "`"))).
Proof.
  apply (required_input_check SampleHost.newFunction (Some "foobar")
           Examples.foobar_text ["tagged"] Examples.foo_property
           Examples.foo_decorator [Examples.foo_input] Examples.foobar 0).
  - reflexivity.
  - vm_compute. reflexivity.
  - vm_compute. reflexivity.
  - vm_compute. reflexivity.
Defined.

(** ** Inputs required under an expression *)

Section ExpressionChecks.
Import InputMetadataWalker.

Variable newFunction : list string → string → string + (list bool → string + bool).

(** What [makeCheck] does for an input with a (non-empty) expression:
    compile the expression, once, with the names of all inputs as
    parameters; the check applies the compiled function to the presence
    vector. *)
Lemma makeCheck_expression (cn : option string) (properties : list string)
    (input : IPendingInput.t) (expr : string) :
  IPendingInput.required input = true →
  IPendingInput.match_ input = Some expr → expr ≠ "" →
  match newFunction properties ("return " +:+ expr) with
  | inl cause =>
      makeCheck newFunction cn properties input
      = Throw (directive_error cn (IPendingInput.name input) expr cause)
  | inr fn =>
      ∃ check : Check,
        makeCheck newFunction cn properties input = Ok check
        ∧ ∀ (env : Env) (args : list bool),
            check env args =
            match fn args with
            | inl cause =>
                Throw (directive_error env (IPendingInput.name input) expr cause)
            | inr true =>
                Ok (Some (IFailure.mk (IPendingInput.name input)
                            (IPendingInput.node input)
                            ("is missing input `" +:+ IPendingInput.alias input
                               +:+ "` required when `" +:+ expr +:+ "`")))
            | inr false => Ok None
            end
  end.
Proof.
  intros Hreq Hmatch Hne. unfold makeCheck, createCustomMatch.
  rewrite Hreq, Hmatch. simpl.
  destruct expr as [|ch expr]; [by destruct Hne|]. simpl.
  unfold tryExec.
  destruct (newFunction properties _) as [cause|fn]; simpl.
  - by rewrite Hmatch.
  - eexists. split; [reflexivity|]. intros env a. simpl.
    destruct (fn a) as [cause|[]]; simpl; by rewrite ?Hmatch.
Qed.

(** A failure found by the check at some index is among those [process]
    returns. *)
Lemma process_contains (env : Env) (c : IComponent.t) (tracker : IElementTracker.t)
    (fromElement : bool) (fs : list IFailure.t) (i : nat) (check : Check)
    (result : IFailure.t) :
  IComponent.checks c !! i = Some check →
  check env (ComponentTracker.args c tracker) = Ok (Some result) →
  ComponentTracker.process env (ComponentTracker.resolved c) tracker fromElement = Ok fs →
  IFailure.mk (IFailure.inputName result) (IFailure.decorator result)
    (("Component <" +:+ ElementAst.name (IElementTracker.element tracker)
        +:+ "> " +:+ IFailure.message result)
     +:+ (if fromElement then ComponentTracker.declared_in (IFailure.decorator result)
          else ComponentTracker.used_in tracker))
  ∈ fs.
Proof.
  intros Hi Hcheck Hp. unfold ComponentTracker.process in Hp. simpl in Hp.
  apply fmap_Ok_inv in Hp as (l & Hl & ->).
  destruct (mapM_lookup _ _ _ _ _ Hl Hi) as (y & Hy & Hpc).
  unfold ComponentTracker.process_check in Hpc. rewrite Hcheck in Hpc. simpl in Hpc.
  injection Hpc as <-.
  apply list_elem_of_omap. eexists. split; [|reflexivity].
  apply list_elem_of_lookup. eauto.
Qed.

(** The check made for an input whose marker carries an expression. *)
Lemma compiled_check (cn : option string) (sourceText : string)
    (options : list string) (property : PropertyDeclaration.t) (dec : Decorator.t)
    (inputs : list IPendingInput.t) (c : IComponent.t) (i : nat) (expr : string) :
  let input := pendingInput sourceText options property dec in
  inputs !! i = Some input →
  makeComponent newFunction cn inputs = Ok c →
  requiredExpressionRe_exec (decoratorText sourceText property) = Some expr →
  expr ≠ "" →
  ∃ (fn : list bool → string + bool) (check : Check),
    newFunction (map IPendingInput.name inputs) ("return " +:+ expr) = inr fn
    ∧ IComponent.checks c !! i = Some check
    ∧ ∀ (env : Env) (args : list bool),
        check env args =
        match fn args with
        | inr true =>
            Ok (Some (IFailure.mk (PropertyDeclaration.name property) dec
                        ("is missing input `" +:+ inputAlias property dec
                           +:+ "` required when `" +:+ expr +:+ "`")))
        | inr false => Ok None
        | inl cause =>
            Throw (directive_error env (PropertyDeclaration.name property) expr cause)
        end.
Proof.
  intros input Hi Hc Hexpr Hne.
  destruct (makeComponent_lookup _ _ _ _ _ _ Hc Hi) as (_ & check & Hcheck & Hmake).
  assert (Hmatch : IPendingInput.match_ input = Some expr) by exact Hexpr.
  pose proof (expression_implies_required _ _ _ _ _ Hmatch) as Hreq.
  pose proof (makeCheck_expression cn (map IPendingInput.name inputs) input expr
                Hreq Hmatch Hne) as Hspec.
  destruct (newFunction (map IPendingInput.name inputs) _) as [cause|fn].
  - rewrite Hspec in Hmake. discriminate Hmake.
  - destruct Hspec as (check' & Hmake' & Hrun).
    rewrite Hmake' in Hmake. injection Hmake as <-.
    exists fn, check'. split; [done|]. split; [done|]. intros env a.
    rewrite Hrun. by destruct (fn a) as [cause|[]].
Qed.

(** C5.  For an input whose marker carries an expression, the expression is
    compiled when the declaration is built, with the names of all inputs as
    parameters; the check applies the compiled predicate to the presence
    vector and fails exactly when the predicate holds, with the message
    [is missing input `<alias>` required when `<expr>`]; when the predicate
    does not hold there is no failure, whatever the presence vector says
    about the input itself. *)
Theorem expression_check (cn : option string) (sourceText : string)
    (options : list string) (property : PropertyDeclaration.t) (dec : Decorator.t)
    (inputs : list IPendingInput.t) (c : IComponent.t) (i : nat) (expr : string) :
  let input := pendingInput sourceText options property dec in
  inputs !! i = Some input →
  makeComponent newFunction cn inputs = Ok c →
  requiredExpressionRe_exec (decoratorText sourceText property) = Some expr →
  expr ≠ "" →
  ∃ (fn : list bool → string + bool) (check : Check),
    newFunction (map IPendingInput.name inputs) ("return " +:+ expr) = inr fn
    ∧ IComponent.checks c !! i = Some check
    ∧ ∀ (env : Env) (args : list bool),
        check env args =
        match fn args with
        | inr true =>
            Ok (Some (IFailure.mk (PropertyDeclaration.name property) dec
                        ("is missing input `" +:+ inputAlias property dec
                           +:+ "` required when `" +:+ expr +:+ "`")))
        | inr false => Ok None
        | inl cause =>
            Throw (directive_error env (PropertyDeclaration.name property) expr cause)
        end.
Proof. apply compiled_check. Qed.

(** C10.  The check of an input required under an expression looks at the
    predicate only.  Whenever the predicate holds of a usage's presence
    vector, the failure naming the input is among those reported for the
    usage; nothing is assumed about the input being absent, so this includes
    the usages that supply it. *)
Theorem predicate_alone_decides (cn : option string) (sourceText : string)
    (options : list string) (property : PropertyDeclaration.t) (dec : Decorator.t)
    (inputs : list IPendingInput.t) (c : IComponent.t) (i : nat) (expr : string)
    (fn : list bool → string + bool)
    (env : Env) (tracker : IElementTracker.t) (fromElement : bool)
    (fs : list IFailure.t) :
  inputs !! i = Some (pendingInput sourceText options property dec) →
  makeComponent newFunction cn inputs = Ok c →
  requiredExpressionRe_exec (decoratorText sourceText property) = Some expr →
  expr ≠ "" →
  newFunction (map IPendingInput.name inputs) ("return " +:+ expr) = inr fn →
  fn (ComponentTracker.args c tracker) = inr true →
  ComponentTracker.process env (ComponentTracker.resolved c) tracker fromElement = Ok fs →
  IFailure.mk (PropertyDeclaration.name property) dec
    (("Component <" +:+ ElementAst.name (IElementTracker.element tracker) +:+ "> "
        +:+ "is missing input `" +:+ inputAlias property dec
        +:+ "` required when `" +:+ expr +:+ "`")
     +:+ (if fromElement then ComponentTracker.declared_in dec
          else ComponentTracker.used_in tracker))
  ∈ fs.
Proof.
  intros Hi Hc Hexpr Hne Hfn Htrue Hp.
  destruct (compiled_check cn sourceText options property dec inputs c i expr
              Hi Hc Hexpr Hne) as (fn' & check & Hfn' & Hcheck & Hrun).
  rewrite Hfn in Hfn'. injection Hfn' as <-.
  specialize (Hrun env (ComponentTracker.args c tracker)). rewrite Htrue in Hrun.
  apply (process_contains env c tracker fromElement fs i check _ Hcheck Hrun Hp).
Qed.

(** The walker's field matters to a check only for the wording of an
    exception: a check that returns, returns the same under every value of
    the field. *)
Lemma makeCheck_env_irrelevant (cn : option string) (properties : list string)
    (input : IPendingInput.t) (check : Check) :
  makeCheck newFunction cn properties input = Ok check →
  ∀ (env env' : Env) (args : list bool) (r : option IFailure.t),
    check env args = Ok r → check env' args = Ok r.
Proof.
  unfold makeCheck. destruct (IPendingInput.required input); simpl.
  - destruct (truthy_string (IPendingInput.match_ input)); simpl.
    + unfold createCustomMatch.
      destruct (newFunction properties _) as [cause|fn]; simpl; [done|].
      intros [= <-] env env' a r. simpl.
      destruct (fn a) as [cause|b]; simpl; [done|]. done.
    + intros [= <-] env env' a r. done.
  - intros [= <-] env env' a r. done.
Qed.

Lemma unqualified_env_irrelevant (cn : option string) (inputs : list IPendingInput.t)
    (D : IComponent.t) (env env' : Env) (tracker : IElementTracker.t)
    (fs : list IFailure.t) :
  makeComponent newFunction cn inputs = Ok D →
  ComponentTracker.unqualified env D tracker = Ok fs →
  ComponentTracker.unqualified env' D tracker = Ok fs.
Proof.
  intros HD. unfold makeComponent in HD.
  apply fmap_Ok_inv in HD as (checks & Hchecks & ->).
  assert (Hirr : ∀ check, check ∈ checks →
            ∀ a r, check env a = Ok r → check env' a = Ok r).
  { intros check Hin a r.
    destruct (mapM_elem_of _ _ _ _ Hchecks Hin) as (input & _ & Hmake).
    apply (makeCheck_env_irrelevant _ _ _ _ Hmake). }
  unfold ComponentTracker.unqualified. simpl.
  generalize (ComponentTracker.args (IComponent.mk (map IPendingInput.name inputs) checks)
                tracker) as a.
  intros a H. apply fmap_Ok_inv in H as (l & Hl & ->).
  clear Hchecks. revert l Hl.
  induction checks as [|check checks IH]; intros l; simpl; [by intros [= <-]|].
  intros H. apply bind_Ok_inv in H as (y & Hy & H).
  apply bind_Ok_inv in H as (ys & Hys & [= <-]).
  apply bind_Ok_inv in Hy as (r & Hr & Hy). injection Hy as <-.
  rewrite (Hirr check ltac:(left) a r Hr).
  assert (IH' := IH (λ c Hc, Hirr c ltac:(by right)) ys Hys).
  apply fmap_Ok_inv in IH' as (l' & Hl' & Heq).
  cbn [bind]. rewrite Hl'. cbn [bind fmap]. unfold omap in *. cbn [list_omap].
  destruct r; cbn [option_map id]; by rewrite Heq.
Qed.

(** On either side of its declaration a usage meets the same checks with the
    same outcome: for a component built by [pushLast], an evaluation that
    returns determines the failures up to the qualifier, and the evaluation
    on the other side returns them with the other qualifier. *)
Lemma evaluation_same_on_both_sides (cn : option string) (inputs : list IPendingInput.t)
    (D : IComponent.t) (fromElement : bool) (env : Env) (u : ComponentTracker.usage)
    (fs : list IFailure.t) :
  makeComponent newFunction cn inputs = Ok D →
  ComponentTracker.evaluate fromElement env D u = Ok fs →
  ∃ base : list IFailure.t,
    fs = map (ComponentTracker.qualify fromElement (ComponentTracker.record_of u)) base
    ∧ ∀ (fromElement' : bool) (env' : Env),
        ComponentTracker.evaluate fromElement' env' D u
        = Ok (map (ComponentTracker.qualify fromElement' (ComponentTracker.record_of u))
                base).
Proof.
  intros HD H. unfold ComponentTracker.evaluate in *.
  apply fmap_Ok_inv in H as (base & Hbase & ->).
  exists base. split; [done|]. intros b' env'.
  by rewrite (unqualified_env_irrelevant cn inputs D env env' _ base HD Hbase).
Qed.

End ExpressionChecks.

(** ** The position of the declaration *)

Section DeclarationPosition.
Import InputMetadataWalker.

Variable newFunction : list string → string → string + (list bool → string + bool).

(** Evaluations that return, on one side of the declaration, in terms of
    failures that do not depend on the side. *)
Lemma evaluations_bases (cn : option string) (inputs : list IPendingInput.t)
    (D : IComponent.t) (fromElement : bool) (env_of : ComponentTracker.usage → Env)
    (us : list ComponentTracker.usage) (xs : list (list IFailure.t)) :
  makeComponent newFunction cn inputs = Ok D →
  mapM (λ u, ComponentTracker.evaluate fromElement (env_of u) D u) us = Ok xs →
  ∃ bases : list (list IFailure.t),
    Forall2 (base_failures D) us bases
    ∧ xs = zip_with
             (λ u base,
                map (ComponentTracker.qualify fromElement (ComponentTracker.record_of u))
                    base)
             us bases.
Proof.
  intros HD. revert xs. induction us as [|u us IH]; intros xs; simpl.
  - intros [= <-]. exists []. split; [constructor|done].
  - intros H. apply bind_Ok_inv in H as (fs & Hfs & H).
    apply bind_Ok_inv in H as (xs' & Hxs' & [= <-]).
    destruct (evaluation_same_on_both_sides newFunction cn inputs D fromElement
                (env_of u) u fs HD Hfs) as (base & -> & Hbase).
    destruct (IH xs' Hxs') as (bases & Hbases & ->).
    exists (base :: bases). split; [by constructor|done].
Qed.

(** C1 (amended).  One declaration [D], built by [pushLast], among the
    usages of its tag, at any position.  The usages before it are answered
    with [undefined] and are evaluated in order when [D] is registered; the
    usages after it are evaluated on arrival; the first evaluation that
    throws ends the run.  In a run that returns, each usage is evaluated
    exactly once, and its failures are the same wherever [D] stands and
    whatever component name the walker holds at the time, up to the
    location qualifier that ends the message: [(used in ...)] for the
    drained usages, [(declared in ...)] for the later ones. *)
Theorem declaration_position (cn : option string) (inputs : list IPendingInput.t)
    (D : IComponent.t) (envD : Env) (us1 us2 : list ComponentTracker.usage) :
  makeComponent newFunction cn inputs = Ok D →
  fst (ComponentTracker.run
         (map ComponentTracker.usage_event us1
            ++ ComponentTracker.Declaration envD D
               :: map ComponentTracker.usage_event us2)
         ComponentTracker.new)
  = bind (mapM (ComponentTracker.evaluate false envD D) us1) (λ drained,
      bind (mapM (λ u, ComponentTracker.evaluate true u.1.1 D u) us2) (λ later,
        Ok (map (λ _, undefined) us1 ++ array (concat drained) :: map array later)))
  ∧ ∀ rs : list ret,
      fst (ComponentTracker.run
             (map ComponentTracker.usage_event us1
                ++ ComponentTracker.Declaration envD D
                   :: map ComponentTracker.usage_event us2)
             ComponentTracker.new) = Ok rs →
      ∃ bases1 bases2 : list (list IFailure.t),
        Forall2 (base_failures D) us1 bases1
        ∧ Forall2 (base_failures D) us2 bases2
        ∧ rs = map (λ _, undefined) us1
               ++ array
                    (concat
                       (zip_with
                          (λ u base,
                             map (ComponentTracker.qualify false
                                    (ComponentTracker.record_of u)) base)
                          us1 bases1))
               :: map array
                    (zip_with
                       (λ u base,
                          map (ComponentTracker.qualify true
                                 (ComponentTracker.record_of u)) base)
                       us2 bases2).
Proof.
  intros HD. split; [apply run_around_declaration|].
  intros rs. rewrite run_around_declaration. intros H.
  apply bind_Ok_inv in H as (drained & Hdrained & H).
  apply bind_Ok_inv in H as (later & Hlater & [= <-]).
  destruct (evaluations_bases cn inputs D false (λ _, envD) us1 drained HD Hdrained)
    as (bases1 & Hbases1 & ->).
  destruct (evaluations_bases cn inputs D true (λ u, u.1.1) us2 later HD Hlater)
    as (bases2 & Hbases2 & ->).
  by exists bases1, bases2.
Qed.

(** For a component built by [pushLast], an evaluation that returns, returns
    the same under every value of the walker's field. *)
Lemma process_env_irrelevant (cn : option string) (inputs : list IPendingInput.t)
    (c : IComponent.t) (env env' : Env) (tracker : IElementTracker.t)
    (fromElement : bool) (fs : list IFailure.t) :
  makeComponent newFunction cn inputs = Ok c →
  ComponentTracker.process env (ComponentTracker.resolved c) tracker fromElement = Ok fs →
  ComponentTracker.process env' (ComponentTracker.resolved c) tracker fromElement = Ok fs.
Proof.
  intros Hc. rewrite !process_qualify. intros H.
  apply fmap_Ok_inv in H as (base & Hbase & ->).
  by rewrite (unqualified_env_irrelevant newFunction cn inputs c env env' _ base Hc Hbase).
Qed.

End DeclarationPosition.

Lemma declaration_position_witness :
  ∃ bases1 bases2 : list (list IFailure.t),
    Forall2 (base_failures Examples.foobar) [Examples.bare_usage] bases1
    ∧ Forall2 (base_failures Examples.foobar) [Examples2.later_usage] bases2
    ∧ Examples2.around_answers
      = map (λ _, undefined) [Examples.bare_usage]
        ++ array
             (concat
                (zip_with
                   (λ u base,
                      map (ComponentTracker.qualify false (ComponentTracker.record_of u))
                          base)
                   [Examples.bare_usage] bases1))
        :: map array
             (zip_with
                (λ u base,
                   map (ComponentTracker.qualify true (ComponentTracker.record_of u))
                       base)
                [Examples2.later_usage] bases2).
Proof.
  destruct (declaration_position SampleHost.newFunction (Some "foobar")
              [Examples.foo_input] Examples.foobar (Some "foobar")
              [Examples.bare_usage] [Examples2.later_usage]) as [_ H].
  - vm_compute. reflexivity.
  - apply (H Examples2.around_answers). vm_compute. reflexivity.
Defined.

Lemma expression_check_witness :
  ∃ (fn : list bool → string + bool) (check : Check),
    SampleHost.newFunction (map IPendingInput.name Examples.cond_inputs)
      ("return " +:+ "!foo") = inr fn
    ∧ IComponent.checks Examples.cond !! 1%nat = Some check
    ∧ ∀ (env : Env) (args : list bool),
        check env args =
        match fn args with
        | inr true =>
            Ok (Some (IFailure.mk "bar" Examples.cond_bar_decorator
                        ("is missing input `"
                           +:+ InputMetadataWalker.inputAlias Examples.cond_bar_property
                                 Examples.cond_bar_decorator
                           +:+ "` required when `" +:+ "!foo" +:+ "`")))
        | inr false => Ok None
        | inl cause => Throw (InputMetadataWalker.directive_error env "bar" "!foo" cause)
        end.
Proof.
  apply (expression_check SampleHost.newFunction (Some "cond") Examples.cond_text
           ["tagged"] Examples.cond_bar_property Examples.cond_bar_decorator
           Examples.cond_inputs Examples.cond 1 "!foo").
  - reflexivity.
  - vm_compute. reflexivity.
  - vm_compute. reflexivity.
  - discriminate.
Defined.

(** The usage [<cond [bar]="1">] supplies [bar] and is reported for missing
    it all the same, since [foo] is absent. *)
Lemma predicate_alone_decides_witness :
  "bar" ∈ IElementTracker.properties Examples.cond_with_bar
  ∧ IFailure.mk "bar" Examples.cond_bar_decorator
      "Component <cond> is missing input `baz` required when `!foo` (used in app.component.html:3)"
    ∈ [IFailure.mk "bar" Examples.cond_bar_decorator
         "Component <cond> is missing input `baz` required when `!foo` (used in app.component.html:3)"].
Proof.
  split; [left|].
  apply (predicate_alone_decides SampleHost.newFunction (Some "cond")
           Examples.cond_text ["tagged"] Examples.cond_bar_property
           Examples.cond_bar_decorator Examples.cond_inputs Examples.cond 1 "!foo"
           (λ args, match SampleHost.variable ["foo"; "bar"] "foo" args with
                    | inl cause => inl cause
                    | inr b => inr (negb b)
                    end)
           (Some "cond") Examples.cond_with_bar false).
  - reflexivity.
  - vm_compute. reflexivity.
  - vm_compute. reflexivity.
  - discriminate.
  - vm_compute. reflexivity.
  - vm_compute. reflexivity.
  - vm_compute. reflexivity.
Defined.

(** ** Requiredness, the skip-list, and what the visitor receives *)

Section WalkerClaims.
Import InputMetadataWalker.

(** C7.  In all-without-defaults mode an input whose text carries the
    [@required] marker is required, with or without an initializer; an
    unmarked input is required when it has no initializer, and is not
    required when it has one, in which case its check never fails. *)
Theorem requiredness_all_without_defaults (sourceText : string)
    (options : list string) (property : PropertyDeclaration.t) (dec : Decorator.t) :
  getMode options = All →
  let input := pendingInput sourceText options property dec in
  let marked := includes (decoratorText sourceText property) "@required" in
  (marked = true → IPendingInput.required input = true)
  ∧ (marked = false → PropertyDeclaration.initializer property = None →
     IPendingInput.required input = true)
  ∧ (marked = false → PropertyDeclaration.initializer property ≠ None →
     IPendingInput.required input = false
     ∧ ∀ newFunction cn properties,
         ∃ check : Check,
           makeCheck newFunction cn properties input = Ok check
           ∧ ∀ env args, check env args = Ok None).
Proof.
  intros Hmode input marked. subst input marked. unfold pendingInput. simpl.
  unfold required_of. rewrite Hmode.
  destruct (includes _ "@required").
  - split; [done|]. split; intros [=].
  - split; [intros [=]|]. split.
    + intros _ ->. done.
    + intros _ Hinit. split; [by apply bool_decide_eq_false|].
      intros newFunction cn properties. unfold makeCheck. simpl.
      rewrite bool_decide_eq_false_2 by done. simpl. eauto.
Qed.

Lemma requiredness_all_without_defaults_witness :
  getMode ["all-without-defaults"] = All
  ∧ includes (decoratorText Examples.default_text Examples.default_property) "@required"
    = false
  ∧ IPendingInput.required
      (pendingInput Examples.default_text ["all-without-defaults"]
         Examples.default_property Examples.foo_decorator) = false.
Proof.
  split; [reflexivity|]. split; [reflexivity|].
  apply (requiredness_all_without_defaults Examples.default_text
           ["all-without-defaults"] Examples.default_property Examples.foo_decorator).
  - reflexivity.
  - reflexivity.
  - discriminate.
Defined.

(** C8.  A usage whose tag name is on the skip-list, literally or by the
    pattern, is answered with [null] and leaves the registry as it is: no
    entry is made for the tag and nothing queued, in any state of the
    registry, in particular after a declaration has been registered under
    the same name; the visitor reports no failure for it. *)
Theorem skipped_usage_is_dropped (env : Env) (fileName : string)
    (element : ElementAst.t) (this : TemplateRequireInputTracker.t) :
  skipped_literal (ElementAst.name element) || skipped_pattern (ElementAst.name element)
  = true →
  TemplateRequireInputTracker.addElement env fileName element this = (Ok null, this)
  ∧ (∀ (env' : Env) (c : IComponent.t),
       let declared :=
         snd (TemplateRequireInputTracker.addComponent env' (ElementAst.name element)
                c this) in
       TemplateRequireInputTracker.addElement env fileName element declared
       = (Ok null, declared))
  ∧ (∀ w : t,
       tracker (snd (visitElement fileName element w)) = tracker w
       ∧ failures (snd (visitElement fileName element w)) = failures w).
Proof.
  intros Hskip.
  assert (Hdrop : ∀ e this0,
            TemplateRequireInputTracker.addElement e fileName element this0
            = (Ok null, this0)).
  { intros e this0. unfold TemplateRequireInputTracker.addElement.
    apply orb_true_iff in Hskip as [->| ->]; [done|].
    by destruct (skipped_literal _). }
  split; [apply Hdrop|]. split; [intros; apply Hdrop|].
  intros w. unfold visitElement. rewrite Hdrop. by destruct w.
Qed.

Lemma skipped_usage_is_dropped_witness :
  TemplateRequireInputTracker.addElement None "app.component.html" Examples.div
    TemplateRequireInputTracker.new
  = (Ok null, TemplateRequireInputTracker.new).
Proof.
  apply (skipped_usage_is_dropped None "app.component.html" Examples.div
           TemplateRequireInputTracker.new).
  reflexivity.
Defined.

(** C9 fails on the code: for a tag of the skip-list the registry answers
    [null], and for a usage that arrives before the declaration of its tag
    the tracker answers [undefined]; the visitor calls [forEach] on either
    and the call ends in a [TypeError]. *)
Lemma visitor_receives_no_array :
  TemplateRequireInputTracker.addElement None "app.component.html" Examples.div
    TemplateRequireInputTracker.new
  = (Ok null, TemplateRequireInputTracker.new)
  ∧ fst (visitElement "app.component.html" Examples.div
           (new Examples.foobar_text ["tagged"] TemplateRequireInputTracker.new))
    = Throw (TypeError "Cannot read property 'forEach' of null")
  ∧ fst (ComponentTracker.addElement None "app.component.html" Examples.bare
           ComponentTracker.new)
    = Ok undefined
  ∧ fst (TemplateRequireInputTracker.addElement None "app.component.html" Examples.bare
           TemplateRequireInputTracker.new)
    = Ok undefined
  ∧ fst (visitElement "app.component.html" Examples.bare
           (new Examples.foobar_text ["tagged"] TemplateRequireInputTracker.new))
    = Throw (TypeError "Cannot read property 'forEach' of undefined").
Proof. repeat split; by vm_compute. Qed.

(** An exception of the tracker passes through the visitor unchanged, and
    no failure is reported in its place. *)
Lemma visitElement_rethrows (fileName : string) (element : ElementAst.t) (w : t)
    (e : exn) :
  fst (TemplateRequireInputTracker.addElement (componentName w) fileName element
         (tracker w)) = Throw e →
  fst (visitElement fileName element w) = Throw e
  ∧ failures (snd (visitElement fileName element w)) = failures w.
Proof.
  unfold visitElement.
  destruct (TemplateRequireInputTracker.addElement _ _ _ _) as [r tracker'].
  simpl. intros ->. done.
Qed.

(** An expression that does not compile makes [pushLast] throw, with the
    walker and the registry left as they were. *)
Lemma pushLast_rethrows newFunction (w : t) (e : exn) :
  inputs w ≠ [] →
  makeComponent newFunction (componentName w) (inputs w) = Throw e →
  pushLast newFunction w = (Throw e, w).
Proof.
  unfold pushLast. intros Hne ->. by destruct (inputs w).
Qed.

(** An expression that throws when it is applied to the presence vector of
    a usage makes [process] throw, provided the checks of the inputs before
    it return: the exception is the [Error] worded by [tryExec], with the
    component name the walker holds at that moment. *)
Lemma evaluation_error_is_thrown newFunction (cn : option string) (sourceText : string)
    (options : list string) (property : PropertyDeclaration.t) (dec : Decorator.t)
    (inputs : list IPendingInput.t) (c : IComponent.t) (i : nat) (expr cause : string)
    (fn : list bool → string + bool) (env : Env) (tracker : IElementTracker.t)
    (fromElement : bool) :
  inputs !! i = Some (pendingInput sourceText options property dec) →
  makeComponent newFunction cn inputs = Ok c →
  requiredExpressionRe_exec (decoratorText sourceText property) = Some expr →
  expr ≠ "" →
  newFunction (map IPendingInput.name inputs) ("return " +:+ expr) = inr fn →
  fn (ComponentTracker.args c tracker) = inl cause →
  (∀ j check, (j < i)%nat → IComponent.checks c !! j = Some check →
     ∃ r, check env (ComponentTracker.args c tracker) = Ok r) →
  ComponentTracker.process env (ComponentTracker.resolved c) tracker fromElement
  = Throw (directive_error env (PropertyDeclaration.name property) expr cause).
Proof.
  intros Hi Hc Hexpr Hne Hfn Hcause Hbefore.
  destruct (compiled_check newFunction cn sourceText options property dec inputs c i
              expr Hi Hc Hexpr Hne) as (fn' & check & Hfn' & Hcheck & Hrun).
  rewrite Hfn in Hfn'. injection Hfn' as <-.
  specialize (Hrun env (ComponentTracker.args c tracker)). rewrite Hcause in Hrun.
  unfold ComponentTracker.process. simpl.
  rewrite (mapM_throw _ _ i check
             (directive_error env (PropertyDeclaration.name property) expr cause));
    [done|done| |].
  - unfold ComponentTracker.process_check. by rewrite Hrun.
  - intros j check' Hj Hcheck'. unfold ComponentTracker.process_check.
    destruct (Hbefore j check' Hj Hcheck') as [r ->]. simpl.
    destruct r; eauto.
Qed.

(** The model agrees with the rule's test "parses line comments": the
    usage met before the declaration is reported when the class is pushed,
    at the decorator, with the message the test expects. *)
Example test_parses_line_comments :
  failures (snd (visitEndOfFileToken SampleHost.newFunction Examples.test_walker))
  = [FailureAtNode Examples.test_decorator
       "Component <foobar> is missing required input `foo` (used in file.ts:0)"].
Proof. by vm_compute. Qed.

(** C6 fails on the code in one respect.  The error is thrown and its
    message carries the input, the expression and the cause, but the
    component it names is the one the walker is visiting when the error is
    caught.  For the input [foo] of component [panel], evaluated when
    [<panel>] is met in the template of component [page], the message names
    [page.foo]; had the usage been queued before [panel] was declared, it
    would name [panel.foo]. *)
Lemma evaluation_error_names_visited_component :
  fst (walk SampleHost.newFunction Examples.two_classes
         (new Examples.bogus_text ["tagged"] TemplateRequireInputTracker.new))
  = Throw (Error "Could not evaluate @required directive on page.foo `bogus`: bogus is not defined")
  ∧ fst (visitClassDeclaration SampleHost.newFunction Examples.panel_pending)
    = Throw (Error "Could not evaluate @required directive on panel.foo `bogus`: bogus is not defined").
Proof. split; by vm_compute. Qed.

End WalkerClaims.

(** * Further properties of the rule *)

(** ** Strings *)

Lemma string_app_cons (x : ascii) (a b : string) :
  String x a +:+ b = String x (a +:+ b).
Proof. reflexivity. Qed.

Lemma string_app_assoc (a b c : string) : (a +:+ b) +:+ c = a +:+ (b +:+ c).
Proof.
  induction a as [|x a IH]; [done|]. rewrite !string_app_cons. by rewrite IH.
Qed.

Lemma string_app_nil_r (a : string) : a +:+ "" = a.
Proof.
  induction a as [|x a IH]; [done|]. rewrite string_app_cons. by rewrite IH.
Qed.

Lemma prefix_split (lit s : string) :
  String.prefix lit s = true → ∃ q, s = lit +:+ q.
Proof.
  revert s. induction lit as [|a lit IH]; intros s.
  - intros _. by exists s.
  - destruct s as [|b s]; simpl; [done|].
    destruct (Ascii.ascii_dec a b) as [->|]; [|done].
    intros H. destruct (IH s H) as [q ->]. by exists q.
Qed.

(** [s.includes(lit)] holds only if [lit] occurs somewhere in [s]. *)
Lemma includes_split (s lit : string) :
  includes s lit = true → ∃ p q, s = p +:+ lit +:+ q.
Proof.
  induction s as [|a s IH]; cbn [includes].
  - rewrite orb_false_r. intros H. destruct (prefix_split _ _ H) as [q ->].
    by exists "", q.
  - intros [H|H]%orb_true_iff.
    + destruct (prefix_split _ _ H) as [q Hq]. exists "", q. by rewrite Hq.
    + destruct (IH H) as (p & q & ->). by exists (String a p), q.
Qed.

(** ** The regular expression of the marker *)

Section RegExpFacts.

(** A matcher that succeeds has called its continuation. *)
Lemma chars_continues {R} (lit : string) (k : RegExp.K) (s : string) (r : R) :
  RegExp.chars lit k s = Some r → ∃ s', k s' = Some r.
Proof.
  revert s. induction lit as [|a lit IH]; intros s; simpl; [eauto|].
  destruct s as [|b s]; [done|]. destruct (decide (a = b)); [eauto|done].
Qed.

Lemma plus_continues {R} (cls : ascii → bool) (k : RegExp.K) (s : string) (r : R) :
  RegExp.plus cls k s = Some r → ∃ s', k s' = Some r.
Proof.
  induction s as [|c s IH]; simpl; [done|].
  destruct (cls c); [|done].
  destruct (RegExp.plus cls k s) as [r'|]; [intros [= <-]; by apply IH|eauto].
Qed.

Lemma search_continues {R} (m : RegExp.K) (s : string) (r : R) :
  RegExp.search m s = Some r → ∃ s', m s' = Some r.
Proof.
  induction s as [|c s IH]; simpl.
  - destruct (m "") eqn:E; [intros [= <-]; eauto|done].
  - destruct (m (String c s)) eqn:E; [intros [= <-]; eauto|eauto].
Qed.

Lemma after_expression_result (group1 s r : string) :
  after_expression group1 s = Some r → r = group1.
Proof.
  unfold after_expression, RegExp.alt, RegExp.opt, RegExp.eoi.
  destruct (RegExp.chars "*" _ s) eqn:E1.
  { intros [= <-]. apply chars_continues in E1 as [s1 E1].
    apply chars_continues in E1 as [s2 E1]. congruence. }
  destruct (RegExp.chars "*/" _ s) eqn:E2.
  { intros [= <-]. apply chars_continues in E2 as [s1 E2]. congruence. }
  destruct (RegExp.chars (String LF "") _ s) eqn:E3.
  { intros [= <-]. apply chars_continues in E3 as [s1 E3]. congruence. }
  destruct s; congruence.
Qed.

Lemma after_expression_close (group1 t : string) :
  after_expression group1 ("*/" +:+ t) = Some group1.
Proof. reflexivity. Qed.

(** The lazy capture stops at the first place where the rest of the pattern
    matches: what it has captured is free of line terminators and of the
    end of a block comment. *)
Lemma star_lazy_group_capture (s acc r : string) :
  RegExp.star_lazy_group RegExp.dot after_expression acc s = Some r →
  ∃ cap rest,
    r = acc +:+ cap ∧ s = cap +:+ rest
    ∧ (∀ p c q, cap = p +:+ String c q → RegExp.dot c = true)
    ∧ (∀ p q, cap ≠ p +:+ "*/" +:+ q).
Proof.
  revert acc. induction s as [|c s IH]; intros acc; cbn [RegExp.star_lazy_group].
  - destruct (after_expression acc "") eqn:E; [|done].
    intros [= <-]. apply after_expression_result in E as ->.
    exists "", "". rewrite string_app_nil_r. repeat split.
    + intros [|??] ???; discriminate.
    + intros [|??] ??; discriminate.
  - destruct (after_expression acc (String c s)) eqn:E.
    + intros [= <-]. apply after_expression_result in E as ->.
      exists "", (String c s). rewrite string_app_nil_r. repeat split.
      * intros [|??] ???; discriminate.
      * intros [|??] ??; discriminate.
    + destruct (RegExp.dot c) eqn:Hc; [|done]. intros H.
      destruct (IH _ H) as (cap & rest & -> & -> & Hdot & Hclose).
      exists (String c cap), rest. split; [|split; [done|split]].
      * by rewrite string_app_assoc.
      * intros [|a p] c' q; rewrite ?string_app_cons.
        -- intros [= <- <-]. done.
        -- intros [= <- Hcap]. by apply (Hdot p c' q).
      * intros [|a p] q; rewrite ?string_app_cons.
        -- intros [= -> Hcap]. rewrite Hcap in E.
           pose proof (after_expression_close acc (q +:+ rest)) as Hclosed.
           change (after_expression acc ("*/" +:+ q +:+ rest) = None) in E.
           congruence.
        -- intros [= <- Hcap]. by apply (Hclose p q).
Qed.

End RegExpFacts.

Section MarkerClaims.
Import InputMetadataWalker.

(** X1.  Unless the first option is exactly [all-without-defaults] (tagged
    mode, no option, or any other string), an input is required exactly when
    the text of its member carries the marker; whether it has an initializer
    plays no part. *)
Theorem requiredness_tagged (sourceText : string) (options : list string)
    (property : PropertyDeclaration.t) (dec : Decorator.t) :
  head options ≠ Some "all-without-defaults" →
  IPendingInput.required (pendingInput sourceText options property dec)
  = includes (decoratorText sourceText property) "@required".
Proof.
  intros Hopt. unfold pendingInput. simpl. unfold required_of, getMode.
  destruct options as [|o options]; simpl in *.
  - by destruct (includes _ _).
  - destruct (decide (o = "all-without-defaults")) as [->|_]; [done|].
    by destruct (includes _ _).
Qed.

Lemma requiredness_tagged_witness :
  IPendingInput.required
    (pendingInput Examples.default_text ["all-without-default"]
       Examples.default_property Examples.foo_decorator)
  = includes (decoratorText Examples.default_text Examples.default_property) "@required".
Proof.
  apply (requiredness_tagged Examples.default_text ["all-without-default"]
           Examples.default_property Examples.foo_decorator).
  simpl. discriminate.
Defined.

(** X2.  An expression is found only behind the marker: whenever the
    regular expression yields an expression for a member, the member's text
    includes [@required] and the input is required, whatever the mode and
    whether or not the member has an initializer. *)
Theorem expression_only_behind_marker (sourceText : string) (options : list string)
    (property : PropertyDeclaration.t) (dec : Decorator.t) (expr : string) :
  IPendingInput.match_ (pendingInput sourceText options property dec) = Some expr →
  includes (decoratorText sourceText property) "@required" = true
  ∧ IPendingInput.required (pendingInput sourceText options property dec) = true.
Proof.
  intros H. split; [|by apply expression_implies_required in H].
  unfold pendingInput in H. simpl in H. unfold requiredExpressionRe_exec in H.
  by apply search_includes in H.
Qed.

Lemma expression_only_behind_marker_witness :
  includes (decoratorText Examples.cond_text Examples.cond_bar_property) "@required"
  = true
  ∧ IPendingInput.required
      (pendingInput Examples.cond_text ["all-without-defaults"]
         Examples.cond_bar_property Examples.cond_bar_decorator) = true.
Proof.
  apply (expression_only_behind_marker Examples.cond_text ["all-without-defaults"]
           Examples.cond_bar_property Examples.cond_bar_decorator "!foo").
  reflexivity.
Defined.

(** X3.  The expression the regular expression captures never contains the
    end of a block comment nor a line terminator: the capture stops in front
    of the first [*/], line feed or end of text, and [.] does not match a
    carriage return. *)
Theorem captured_expression_is_clean (text expr : string) :
  requiredExpressionRe_exec text = Some expr →
  includes expr "*/" = false
  ∧ includes expr (String LF "") = false
  ∧ includes expr (String CR "") = false.
Proof.
  unfold requiredExpressionRe_exec. intros H.
  apply search_continues in H as [s1 H]. apply chars_continues in H as [s2 H].
  apply plus_continues in H as [s3 H]. apply chars_continues in H as [s4 H].
  apply plus_continues in H as [s5 H].
  change (RegExp.star_lazy_group RegExp.dot after_expression "" s5 = Some expr) in H.
  apply star_lazy_group_capture in H as (cap & rest & -> & _ & Hdot & Hclose).
  change ("" +:+ cap) with cap.
  split; [|split].
  - destruct (includes cap "*/") eqn:E; [|done].
    apply includes_split in E as (p & q & E). by destruct (Hclose p q).
  - destruct (includes cap (String LF "")) eqn:E; [|done].
    apply includes_split in E as (p & q & E). by pose proof (Hdot p LF q E).
  - destruct (includes cap (String CR "")) eqn:E; [|done].
    apply includes_split in E as (p & q & E). by pose proof (Hdot p CR q E).
Qed.

Lemma captured_expression_is_clean_witness :
  includes "a && b " "*/" = false
  ∧ includes "a && b " (String LF "") = false
  ∧ includes "a && b " (String CR "") = false.
Proof.
  apply (captured_expression_is_clean "/** @required if a && b */ @Input() x: T;").
  reflexivity.
Defined.

End MarkerClaims.

(** ** The skip-list and the registry *)

Section RegistryFacts.
Import TemplateRequireInputTracker.

Lemma chars_split {R} (lit : string) (k : RegExp.K) (s : string) (r : R) :
  RegExp.chars lit k s = Some r → ∃ q, s = lit +:+ q ∧ k q = Some r.
Proof.
  revert s. induction lit as [|a lit IH]; intros s; simpl; [by exists s|].
  destruct s as [|b s]; [done|]. destruct (decide (a = b)) as [->|]; [|done].
  intros H. destruct (IH s H) as (q & -> & Hq). by exists q.
Qed.

Lemma chars_app {R} (lit : string) (k : RegExp.K) (q : string) :
  RegExp.chars (R:=R) lit k (lit +:+ q) = k q.
Proof.
  induction lit as [|a lit IH]; [done|].
  rewrite string_app_cons. cbn [RegExp.chars]. by rewrite decide_True.
Qed.

(** X4.  The pattern of the skip-list, [/^ng\-.+/], accepts exactly the
    names that start with [ng-] and go on with at least one character that
    is no line terminator; [ng-] alone and names that merely contain [ng-]
    are not accepted. *)
Theorem ng_pattern (name : string) :
  ng_re_test name = true
  ↔ ∃ (c : ascii) (rest : string),
      name = "ng-" +:+ String c rest ∧ RegExp.dot c = true.
Proof.
  unfold ng_re_test. rewrite bool_decide_eq_true. split.
  - intros [[] H]. apply chars_split in H as (q & -> & H).
    destruct q as [|c rest]; simpl in H; [done|].
    destruct (RegExp.dot c) eqn:Hc; [|done]. by exists c, rest.
  - intros (c & rest & -> & Hc). rewrite chars_app. simpl. rewrite Hc.
    by destruct (RegExp.plus _ _ rest).
Qed.

Lemma tracker_of_lookup (name : string) (this : t) :
  Registry.tracker_of name this = default ComponentTracker.new (tags this !! name).
Proof.
  unfold Registry.tracker_of, getByName. by destruct (tags this !! name).
Qed.

Lemma tracker_of_store (n m : string) (c : ComponentTracker.t) (this : t) :
  Registry.tracker_of n (store m c this)
  = if decide (m = n) then c else Registry.tracker_of n this.
Proof.
  rewrite !tracker_of_lookup. unfold store. simpl.
  destruct (decide (m = n)) as [->|Hne].
  - by rewrite lookup_insert_eq.
  - by rewrite lookup_insert_ne.
Qed.

(** Writing a tracker back after [getByName] gives the same registry,
    whether or not [getByName] had to make the entry. *)
Lemma store_after_getByName (name : string) (c : ComponentTracker.t) (this : t) :
  store name c (snd (getByName name this)) = store name c this.
Proof.
  unfold getByName, store. destruct (tags this !! name); simpl; [done|].
  by rewrite insert_insert_eq.
Qed.

Lemma store_same (name : string) (this : t) (c : ComponentTracker.t) :
  tags this !! name = Some c → store name c this = this.
Proof. destruct this as [m]. unfold store. simpl. intros H. by rewrite insert_id. Qed.

Lemma addElement_closed (env : Env) (fileName : string) (element : ElementAst.t)
    (this : t) :
  addElement env fileName element this =
  if skipped (ElementAst.name element) then (Ok null, this)
  else
    (fst (ComponentTracker.addElement env fileName element
            (Registry.tracker_of (ElementAst.name element) this)),
     store (ElementAst.name element)
       (snd (ComponentTracker.addElement env fileName element
               (Registry.tracker_of (ElementAst.name element) this)))
       this).
Proof.
  unfold addElement, skipped.
  destruct (skipped_literal _); simpl; [done|].
  destruct (skipped_pattern _); simpl; [done|].
  generalize (λ c, store_after_getByName (ElementAst.name element) c this).
  unfold Registry.tracker_of.
  destruct (getByName (ElementAst.name element) this) as [c this1]. simpl.
  intros Hstore.
  destruct (ComponentTracker.addElement env fileName element c) as [r c']. simpl.
  by rewrite Hstore.
Qed.

Lemma addComponent_closed (env : Env) (name : string) (c : IComponent.t) (this : t) :
  addComponent env name c this =
  (fst (ComponentTracker.addComponent env c (Registry.tracker_of name this)),
   store name (ComponentTracker.resolved c) this).
Proof.
  unfold addComponent.
  generalize (λ c0, store_after_getByName name c0 this).
  unfold Registry.tracker_of.
  destruct (getByName name this) as [t0 this1]. simpl.
  intros Hstore. by rewrite Hstore.
Qed.

(** The cases of [addElement]. *)
Lemma addElement_cases (env : Env) (fileName : string) (element : ElementAst.t)
    (this : t) :
  let name := ElementAst.name element in
  let record :=
    IElementTracker.mk fileName element
      (ElementAst.inputs element ++ ElementAst.attrs element) in
  addElement env fileName element this =
  if skipped name then (Ok null, this)
  else
    match Registry.declaration_of name this with
    | Some c =>
        (fmap array
           (ComponentTracker.process env (ComponentTracker.resolved c) record true),
         this)
    | None =>
        (Ok undefined,
         store name (ComponentTracker.mk (Registry.pending name this ++ [record]) None)
           this)
    end.
Proof.
  intros name record. rewrite addElement_closed. fold name.
  destruct (skipped name); [done|].
  unfold Registry.declaration_of, Registry.pending.
  pose proof (tracker_of_lookup name this) as Hlook.
  destruct (Registry.tracker_of name this) as [queue [c|]] eqn:Ht; simpl; [|done].
  f_equal. apply store_same.
  destruct (tags this !! name) as [t0|]; simpl in Hlook; [by rewrite Hlook|done].
Qed.

(** X5.  What the registry answers to a usage, and what the usage does to
    it.  For a tag on the skip-list: [null], nothing changes.  For another
    tag without a declaration: [undefined]; the usage is put at the end of
    the queue of that tag, the entry being made if there was none.  For a
    tag with a declaration: the failures (or the exception) of evaluating
    the usage against that declaration; nothing changes. *)
Theorem addElement_answer (env : Env) (fileName : string) (element : ElementAst.t)
    (this : t) :
  let name := ElementAst.name element in
  let record :=
    IElementTracker.mk fileName element
      (ElementAst.inputs element ++ ElementAst.attrs element) in
  addElement env fileName element this =
  if skipped name then (Ok null, this)
  else
    match Registry.declaration_of name this with
    | Some c =>
        (fmap array
           (ComponentTracker.process env (ComponentTracker.resolved c) record true),
         this)
    | None =>
        (Ok undefined,
         store name (ComponentTracker.mk (Registry.pending name this ++ [record]) None)
           this)
    end.
Proof. apply addElement_cases. Qed.

(** X6.  Registering a declaration under a name evaluates exactly the usages
    queued under that name, in the order they came, and returns their
    failures; afterwards the name holds the declaration with an empty queue,
    and the tracker of every other name is as it was. *)
Theorem addComponent_answer (env : Env) (name : string) (c : IComponent.t) (this : t) :
  fst (addComponent env name c this)
  = fmap (λ items, concat items)
         (mapM (λ item,
                  ComponentTracker.process env (ComponentTracker.resolved c) item false)
               (Registry.pending name this))
  ∧ Registry.tracker_of name (snd (addComponent env name c this))
    = ComponentTracker.resolved c
  ∧ ∀ other : string,
      other ≠ name →
      Registry.tracker_of other (snd (addComponent env name c this))
      = Registry.tracker_of other this.
Proof.
  rewrite addComponent_closed. simpl. split; [done|]. split.
  - rewrite tracker_of_store. by rewrite decide_True.
  - intros other Hne. rewrite tracker_of_store. by rewrite decide_False.
Qed.

(** One step of a pass, seen from the tracker of one tag. *)
Lemma step_project (name : string) (ev : Registry.event) (this : t) :
  match Registry.project name ev with
  | Some tev =>
      ComponentTracker.step tev (Registry.tracker_of name this)
      = (fst (Registry.step ev this),
         Registry.tracker_of name (snd (Registry.step ev this)))
  | None =>
      Registry.tracker_of name (snd (Registry.step ev this))
      = Registry.tracker_of name this
  end.
Proof.
  destruct ev as [env fileName element|env name' c]; simpl.
  - rewrite addElement_closed.
    destruct (decide (ElementAst.name element = name)) as [Heq|Hne].
    + rewrite Heq. destruct (skipped name); [done|]. simpl.
      rewrite tracker_of_store, decide_True by done.
      by destruct (ComponentTracker.addElement _ _ _ _).
    + destruct (skipped (ElementAst.name element)); [done|]. simpl.
      by rewrite tracker_of_store, decide_False.
  - rewrite addComponent_closed. simpl.
    destruct (decide (name' = name)) as [->|Hne]; simpl.
    + by rewrite tracker_of_store, decide_True.
    + by rewrite tracker_of_store, decide_False.
Qed.

(** X7.  The registry is a family of independent trackers.  In a pass that
    runs to its end, the tracker of each tag goes through exactly the run
    made of the events of that tag (its declarations and, unless the tag is
    on the skip-list, its usages), in their order, whatever events of other
    tags come in between; and the answers to those events are the answers of
    that run. *)
Theorem registry_is_per_tag (name : string) (evs : list Registry.event) (this this' : t)
    (rs : list ret) :
  Registry.run evs this = (Ok rs, this') →
  ComponentTracker.run (omap (Registry.project name) evs)
    (Registry.tracker_of name this)
  = (Ok (Registry.answers name evs rs), Registry.tracker_of name this').
Proof.
  revert this rs. induction evs as [|ev evs IH]; intros this rs; simpl.
  - by intros [= <- <-].
  - pose proof (step_project name ev this) as Hstep.
    destruct (Registry.step ev this) as [[x|e] this1]; [|done].
    destruct (Registry.run evs this1) as [[rs'|e] this2] eqn:Hrun; [|done].
    simpl. intros [= <- <-]. specialize (IH _ _ Hrun).
    unfold Registry.answers. simpl. fold (Registry.answers name evs rs').
    unfold omap in *. simpl.
    destruct (Registry.project name ev) as [tev|]; simpl in *.
    + rewrite Hstep. by rewrite IH.
    + by rewrite <- Hstep.
Qed.

End RegistryFacts.

Lemma registry_is_per_tag_witness :
  ComponentTracker.run (omap (Registry.project "foobar") Examples2.mixed_pass)
    (Registry.tracker_of "foobar" TemplateRequireInputTracker.new)
  = (Ok (Registry.answers "foobar" Examples2.mixed_pass Examples2.mixed_answers),
     Registry.tracker_of "foobar"
       (snd (Registry.run Examples2.mixed_pass TemplateRequireInputTracker.new))).
Proof.
  apply (registry_is_per_tag "foobar" Examples2.mixed_pass
           TemplateRequireInputTracker.new).
  vm_compute. reflexivity.
Defined.

(** ** More on the tracker of one tag *)

Section TrackerInvariant.
Import ComponentTracker.

Lemma step_settled (ev : event) (this : t) :
  settled this → settled (snd (step ev this)).
Proof.
  unfold settled. destruct ev as [env fileName element|env c]; simpl.
  - unfold addElement. destruct (component this) eqn:E; simpl; [|by left].
    intros [?|?]; [congruence|by right].
  - intros _. by right.
Qed.

Lemma run_settled (evs : list event) (this : t) :
  settled this → settled (snd (run evs this)).
Proof.
  revert this. induction evs as [|ev evs IH]; intros this Hs; simpl; [done|].
  pose proof (step_settled ev this Hs) as Hstep.
  destruct (step ev this) as [[x|e] this1]; simpl in *; [|done].
  specialize (IH this1 Hstep).
  by destruct (run evs this1) as [rs this2].
Qed.

(** X8.  A tracker never holds a declaration and queued usages at once.
    After any run from a new tracker, aborted or not, a tracker that holds a
    declaration has an empty queue; so registering a further declaration
    evaluates nothing: it reports no failure and cannot throw, whatever the
    checks of either declaration do. *)
Theorem resolved_tracker_has_empty_queue (evs : list event) :
  let this := snd (run evs new) in
  is_Some (component this) →
  elementQueue this = []
  ∧ ∀ (env : Env) (c : IComponent.t), addComponent env c this = (Ok [], resolved c).
Proof.
  intros this [c Hc]. subst this.
  assert (Hq : elementQueue (snd (run evs new)) = []).
  { destruct (run_settled evs new) as [Hn|Hq]; [by left|congruence|done]. }
  split; [done|]. intros env c'. unfold addComponent. by rewrite Hq.
Qed.

Lemma resolved_tracker_has_empty_queue_witness :
  elementQueue
    (snd (run [usage_event Examples.bare_usage;
               Declaration (Some "foobar") Examples.foobar;
               usage_event Examples.bare_usage] new)) = []
  ∧ ∀ (env : Env) (c : IComponent.t),
      addComponent env c
        (snd (run [usage_event Examples.bare_usage;
                   Declaration (Some "foobar") Examples.foobar;
                   usage_event Examples.bare_usage] new))
      = (Ok [], resolved c).
Proof.
  apply (resolved_tracker_has_empty_queue
           [usage_event Examples.bare_usage;
            Declaration (Some "foobar") Examples.foobar;
            usage_event Examples.bare_usage]).
  exists Examples.foobar. vm_compute. reflexivity.
Defined.

End TrackerInvariant.

(** ** Pushing a class *)

Section PushLast.
Import InputMetadataWalker.

Variable newFunction : list string → string → string + (list bool → string + bool).

(** A successful [pushLast] with inputs in hand, step by step. *)
Lemma pushLast_success (w : t) :
  inputs w ≠ [] → fst (pushLast newFunction w) = Ok () →
  ∃ (c : IComponent.t) (errs : list IFailure.t),
    makeComponent newFunction (componentName w) (inputs w) = Ok c
    ∧ fst (TemplateRequireInputTracker.addComponent (componentName w)
             (of_optional (componentName w)) c (tracker w)) = Ok errs
    ∧ snd (pushLast newFunction w)
      = set_inputs []
          (add_failures
             (map (λ err, FailureAtNode (IFailure.decorator err) (IFailure.message err))
                  errs)
             (set_tracker
                (snd (TemplateRequireInputTracker.addComponent (componentName w)
                        (of_optional (componentName w)) c (tracker w)))
                w)).
Proof.
  unfold pushLast. destruct (inputs w) as [|input inputs'] eqn:Hin; [done|].
  intros _. rewrite <- Hin.
  destruct (makeComponent newFunction (componentName w) (inputs w)) as [c|e]; [|done].
  destruct (TemplateRequireInputTracker.addComponent _ _ c (tracker w))
    as [[errs|e] tracker'] eqn:Hadd; simpl; [|done].
  intros _. exists c, errs. by rewrite Hadd.
Qed.

(** X9.  When [pushLast] succeeds for a class with inputs, the declaration
    built from those inputs is in effect under the component name the
    walker holds, or under the name [undefined] when it holds none; the
    trackers of other names are untouched; the failures reported, at the
    decorators, are exactly those of the usages that were queued under that
    name; and the walker is left without inputs, with its component name
    unchanged. *)
Theorem pushLast_registers (w : t) :
  inputs w ≠ [] → fst (pushLast newFunction w) = Ok () →
  let w' := snd (pushLast newFunction w) in
  let tag := of_optional (componentName w) in
  ∃ (c : IComponent.t) (errs : list IFailure.t),
    makeComponent newFunction (componentName w) (inputs w) = Ok c
    ∧ Registry.tracker_of tag (tracker w') = ComponentTracker.resolved c
    ∧ (∀ other, other ≠ tag →
         Registry.tracker_of other (tracker w') = Registry.tracker_of other (tracker w))
    ∧ fmap (λ items, concat items)
           (mapM (λ item,
                    ComponentTracker.process (componentName w)
                      (ComponentTracker.resolved c) item false)
                 (Registry.pending tag (tracker w))) = Ok errs
    ∧ failures w'
      = failures w
        ++ map (λ err, FailureAtNode (IFailure.decorator err) (IFailure.message err))
               errs
    ∧ inputs w' = [] ∧ componentName w' = componentName w.
Proof.
  intros Hin Hok w' tag. subst w' tag.
  destruct (pushLast_success w Hin Hok) as (c & errs & Hc & Herrs & ->).
  exists c, errs. rewrite addComponent_closed in *. simpl in *.
  split; [done|]. split; [by rewrite tracker_of_store, decide_True|].
  split; [intros other Hne; by rewrite tracker_of_store, decide_False|].
  done.
Qed.

(** X10.  Pushing twice is pushing once: after a successful [pushLast]
    another one, with no input visited in between, registers nothing,
    reports nothing and changes nothing, as when the end of the file follows
    the last class. *)
Theorem pushLast_twice (w : t) :
  fst (pushLast newFunction w) = Ok () →
  pushLast newFunction (snd (pushLast newFunction w))
  = (Ok (), snd (pushLast newFunction w)).
Proof.
  intros Hok. destruct (inputs w) as [|input inputs'] eqn:Hin.
  - unfold pushLast. rewrite Hin. simpl. unfold pushLast. by rewrite Hin.
  - assert (Hne : inputs w ≠ []) by (by rewrite Hin).
    destruct (pushLast_success w Hne Hok) as (c & errs & _ & _ & ->).
    reflexivity.
Qed.

Lemma visitNgInput_fold (members : list (PropertyDeclaration.t * Decorator.t)) (w : t) :
  let w' := foldl (λ w0 '(p, d), visitNgInput p d w0) w members in
  inputs w' = inputs w
              ++ map (λ '(p, d), pendingInput (sourceFile_text w) (options w) p d)
                     members
  ∧ componentName w' = componentName w
  ∧ sourceFile_text w' = sourceFile_text w
  ∧ options w' = options w
  ∧ tracker w' = tracker w.
Proof.
  revert w. induction members as [|[p d] members IH]; intros w; simpl.
  - by rewrite app_nil_r.
  - destruct (IH (visitNgInput p d w)) as (-> & -> & -> & -> & ->). simpl.
    by rewrite <- app_assoc.
Qed.

(** X11.  [pushLast] keeps the component name.  Members visited after it
    without a component in between (the inputs of a class that is no
    component) are therefore pushed under the name of the component before:
    when that push succeeds, the declaration in effect under the name is the
    one built from the later members alone. *)
Theorem inputs_without_component_replace (w : t)
    (members : list (PropertyDeclaration.t * Decorator.t)) :
  members ≠ [] →
  let w1 := snd (pushLast newFunction w) in
  let w2 := foldl (λ w0 '(p, d), visitNgInput p d w0) w1 members in
  fst (pushLast newFunction w) = Ok () →
  fst (pushLast newFunction w2) = Ok () →
  ∃ c2 : IComponent.t,
    makeComponent newFunction (componentName w)
      (map (λ '(p, d), pendingInput (sourceFile_text w) (options w) p d) members)
    = Ok c2
    ∧ Registry.tracker_of (of_optional (componentName w))
        (tracker (snd (pushLast newFunction w2)))
      = ComponentTracker.resolved c2.
Proof.
  intros Hmembers w1 w2 Hok1 Hok2.
  assert (Hw1 : inputs w1 = [] ∧ componentName w1 = componentName w
                ∧ sourceFile_text w1 = sourceFile_text w ∧ options w1 = options w).
  { subst w1. destruct (inputs w) as [|input inputs'] eqn:Hin.
    - unfold pushLast. by rewrite Hin.
    - assert (Hne : inputs w ≠ []) by (by rewrite Hin).
      by destruct (pushLast_success w Hne Hok1) as (c & errs & _ & _ & ->). }
  destruct Hw1 as (Hin1 & Hcn1 & Htext1 & Hopt1).
  destruct (visitNgInput_fold members w1) as (Hin2 & Hcn2 & Htext2 & Hopt2 & _).
  fold w2 in Hin2, Hcn2, Htext2, Hopt2.
  rewrite Hin1, Htext1, Hopt1 in Hin2. simpl in Hin2. rewrite Hcn1 in Hcn2.
  assert (Hne : inputs w2 ≠ []).
  { rewrite Hin2. destruct members; [done|]. by destruct p. }
  destruct (pushLast_success w2 Hne Hok2) as (c2 & errs & Hc2 & _ & ->).
  rewrite Hin2, Hcn2 in Hc2. exists c2. split; [done|].
  rewrite addComponent_closed. simpl.
  by rewrite Hcn2, tracker_of_store, decide_True.
Qed.

End PushLast.

(** ** Components and their failures *)

Section ComponentFailures.
Import InputMetadataWalker.

Variable newFunction : list string → string → string + (list bool → string + bool).

(** The check of an input without an expression. *)
Lemma makeCheck_static (cn : option string) (properties : list string)
    (input : IPendingInput.t) :
  truthy_string (IPendingInput.match_ input) = false →
  ∃ check : Check,
    makeCheck newFunction cn properties input = Ok check
    ∧ ∀ (env : Env) (a : list bool),
        check env a =
        Ok (if IPendingInput.required input
               && negb (truthy_at a (indexOf properties (IPendingInput.name input)))
            then Some (IFailure.mk (IPendingInput.name input) (IPendingInput.node input)
                         ("is missing required input `"
                            +:+ IPendingInput.alias input +:+ "`"))
            else None).
Proof.
  intros Hstatic. unfold makeCheck. rewrite Hstatic.
  destruct (IPendingInput.required input); simpl.
  - eexists. split; [reflexivity|]. intros env a. simpl.
    unfold createDefaultMatch. by destruct (truthy_at a _).
  - eexists. split; [reflexivity|]. done.
Qed.

(** A failure carries the name and the decorator of the input whose check
    produced it. *)
Lemma makeCheck_result (cn : option string) (properties : list string)
    (input : IPendingInput.t) (check : Check) (env : Env) (a : list bool)
    (f : IFailure.t) :
  makeCheck newFunction cn properties input = Ok check →
  check env a = Ok (Some f) →
  IFailure.inputName f = IPendingInput.name input
  ∧ IFailure.decorator f = IPendingInput.node input.
Proof.
  unfold makeCheck. destruct (IPendingInput.required input); simpl.
  - intros H. apply bind_Ok_inv in H as (checker & _ & [= <-]). simpl.
    intros H. apply bind_Ok_inv in H as (errMessage & _ & H).
    destruct errMessage as [[|??]|]; by inversion H.
  - intros [= <-]. done.
Qed.

Lemma static_process (cn : option string) (properties : list string)
    (env : Env) (tracker : IElementTracker.t) (fromElement : bool) (a : list bool)
    (l : list IPendingInput.t) (checks : list Check) :
  mapM (makeCheck newFunction cn properties) l = Ok checks →
  Forall (λ input, truthy_string (IPendingInput.match_ input) = false) l →
  (∀ input, input ∈ l →
     truthy_at a (indexOf properties (IPendingInput.name input))
     = bool_decide (IPendingInput.name input ∈ IElementTracker.properties tracker)) →
  fmap (omap id) (mapM (ComponentTracker.process_check env tracker fromElement a) checks)
  = Ok (map (λ input,
               ComponentTracker.qualify fromElement tracker
                 (IFailure.mk (IPendingInput.name input) (IPendingInput.node input)
                    ("Component <" +:+ ElementAst.name (IElementTracker.element tracker)
                       +:+ "> " +:+ "is missing required input `"
                       +:+ IPendingInput.alias input +:+ "`")))
            (List.filter
               (λ input,
                  IPendingInput.required input
                  && negb (bool_decide (IPendingInput.name input
                                        ∈ IElementTracker.properties tracker)))
               l)).
Proof.
  revert checks. induction l as [|input l IH]; intros checks; simpl.
  - by intros [= <-].
  - intros H Hstatic Hread.
    apply bind_Ok_inv in H as (check & Hcheck & H).
    apply bind_Ok_inv in H as (checks' & Hchecks' & [= <-]).
    apply Forall_cons in Hstatic as [Hs Hstatic].
    destruct (makeCheck_static cn properties input Hs) as (check' & Hcheck' & Hrun).
    rewrite Hcheck' in Hcheck. injection Hcheck as <-.
    specialize (IH checks' Hchecks' Hstatic (λ i Hi, Hread i ltac:(by right))).
    apply fmap_Ok_inv in IH as (rs & Hrs & Heq).
    simpl. unfold ComponentTracker.process_check at 1.
    rewrite Hrun, (Hread input ltac:(left)). rewrite Hrs.
    destruct (IPendingInput.required input && _); simpl.
    + unfold omap in Heq. by rewrite <- Heq.
    + unfold omap in Heq. by rewrite <- Heq.
Qed.

(** The declaration of a class whose inputs carry no expression. *)
Lemma static_component_spec (cn : option string) (inputs : list IPendingInput.t) :
  Forall (λ input, truthy_string (IPendingInput.match_ input) = false) inputs →
  ∃ c : IComponent.t,
    makeComponent newFunction cn inputs = Ok c
    ∧ ∀ (env : Env) (tracker : IElementTracker.t) (fromElement : bool),
        ComponentTracker.process env (ComponentTracker.resolved c) tracker fromElement
        = Ok (map (λ input,
                     ComponentTracker.qualify fromElement tracker
                       (IFailure.mk (IPendingInput.name input) (IPendingInput.node input)
                          ("Component <"
                             +:+ ElementAst.name (IElementTracker.element tracker)
                             +:+ "> " +:+ "is missing required input `"
                             +:+ IPendingInput.alias input +:+ "`")))
                  (List.filter
                     (λ input,
                        IPendingInput.required input
                        && negb (bool_decide (IPendingInput.name input
                                              ∈ IElementTracker.properties tracker)))
                     inputs)).
Proof.
  intros Hstatic.
  assert (Hchecks : ∃ checks,
            mapM (makeCheck newFunction cn (map IPendingInput.name inputs)) inputs
            = Ok checks).
  { generalize (map IPendingInput.name inputs) as properties. intros properties.
    induction Hstatic as [|input l Hs _ IH]; simpl; [eauto|].
    destruct (makeCheck_static cn properties input Hs) as (check & -> & _).
    destruct IH as [checks ->]. simpl. eauto. }
  destruct Hchecks as [checks Hchecks].
  exists (IComponent.mk (map IPendingInput.name inputs) checks).
  split; [unfold makeComponent; by rewrite Hchecks|].
  intros env tracker fromElement. unfold ComponentTracker.process. simpl.
  apply (static_process cn _ env tracker fromElement _ inputs checks Hchecks Hstatic).
  intros input [i Hi]%list_elem_of_lookup.
  by destruct (args_at_input (IComponent.mk (map IPendingInput.name inputs) checks)
                 tracker inputs i input eq_refl Hi) as [_ ->].
Qed.

(** X12.  A class none of whose inputs carries an expression always yields
    a declaration, and evaluating a usage against it never throws: the
    failures are, in the order of the inputs, one for each required input
    whose member name is not among the names the usage supplies.  Presence
    is decided by the member name; the alias only appears in the message. *)
Theorem static_component (cn : option string) (inputs : list IPendingInput.t) :
  Forall (λ input, truthy_string (IPendingInput.match_ input) = false) inputs →
  ∃ c : IComponent.t,
    makeComponent newFunction cn inputs = Ok c
    ∧ ∀ (env : Env) (tracker : IElementTracker.t) (fromElement : bool),
        ComponentTracker.process env (ComponentTracker.resolved c) tracker fromElement
        = Ok (map (λ input,
                     ComponentTracker.qualify fromElement tracker
                       (IFailure.mk (IPendingInput.name input) (IPendingInput.node input)
                          ("Component <"
                             +:+ ElementAst.name (IElementTracker.element tracker)
                             +:+ "> " +:+ "is missing required input `"
                             +:+ IPendingInput.alias input +:+ "`")))
                  (List.filter
                     (λ input,
                        IPendingInput.required input
                        && negb (bool_decide (IPendingInput.name input
                                              ∈ IElementTracker.properties tracker)))
                     inputs)).
Proof. apply static_component_spec. Qed.

(** X13.  The rule throws its own error only on account of an expression:
    pushing a class none of whose inputs carries one succeeds, whatever
    usages are waiting for it. *)
Theorem static_class_never_throws (w : t) :
  Forall (λ input, truthy_string (IPendingInput.match_ input) = false) (inputs w) →
  fst (pushLast newFunction w) = Ok ().
Proof.
  intros Hstatic. unfold pushLast.
  destruct (inputs w) as [|input inputs'] eqn:Hin; [done|]. rewrite <- Hin in *.
  destruct (static_component_spec (componentName w) (inputs w) Hstatic)
    as (c & -> & Hprocess).
  rewrite addComponent_closed. simpl.
  assert (Hdrain : ∀ queue,
            ∃ items, mapM (λ item,
                             ComponentTracker.process (componentName w)
                               (ComponentTracker.resolved c) item false) queue
                     = Ok items).
  { induction queue as [|item queue [items IH]]; simpl; [eauto|].
    rewrite Hprocess, IH. simpl. eauto. }
  destruct (Hdrain (ComponentTracker.elementQueue
                      (Registry.tracker_of (of_optional (componentName w)) (tracker w))))
    as [items Hitems].
  unfold ComponentTracker.resolved in Hitems. by rewrite Hitems.
Qed.

Lemma failures_sublist (cn : option string) (properties : list string)
    (env : Env) (tracker : IElementTracker.t) (fromElement : bool) (a : list bool)
    (l : list IPendingInput.t) (checks : list Check) (rs : list (option IFailure.t)) :
  mapM (makeCheck newFunction cn properties) l = Ok checks →
  mapM (ComponentTracker.process_check env tracker fromElement a) checks = Ok rs →
  map (λ f, (IFailure.inputName f, IFailure.decorator f)) (omap id rs)
  `sublist_of` map (λ input, (IPendingInput.name input, IPendingInput.node input)) l.
Proof.
  revert checks rs. induction l as [|input l IH]; intros checks rs; simpl.
  - intros [= <-]. simpl. intros [= <-]. constructor.
  - intros H. apply bind_Ok_inv in H as (check & Hcheck & H).
    apply bind_Ok_inv in H as (checks' & Hchecks' & [= <-]). simpl.
    intros H. apply bind_Ok_inv in H as (r & Hr & H).
    apply bind_Ok_inv in H as (rs' & Hrs' & [= <-]).
    specialize (IH checks' rs' Hchecks' Hrs').
    unfold ComponentTracker.process_check in Hr.
    apply bind_Ok_inv in Hr as (result & Hresult & Hr).
    destruct result as [result|]; injection Hr as <-.
    + destruct (makeCheck_result cn properties input check env a result Hcheck Hresult)
        as [Hname Hnode].
      unfold omap in *. simpl. rewrite Hname, Hnode. by constructor.
    + unfold omap in *. simpl. by constructor.
Qed.

(** X14.  Whatever the expressions of a declaration do, the failures of one
    evaluation follow the inputs: read by input name and decorator they
    form a sublist of the declared inputs, so there is at most one failure
    for an input and the failures come in the order of the inputs. *)
Theorem failures_follow_inputs (cn : option string) (inputs : list IPendingInput.t)
    (c : IComponent.t) (env : Env) (tracker : IElementTracker.t) (fromElement : bool)
    (fs : list IFailure.t) :
  makeComponent newFunction cn inputs = Ok c →
  ComponentTracker.process env (ComponentTracker.resolved c) tracker fromElement = Ok fs →
  map (λ f, (IFailure.inputName f, IFailure.decorator f)) fs
  `sublist_of` map (λ input, (IPendingInput.name input, IPendingInput.node input)) inputs.
Proof.
  unfold makeComponent. intros Hc Hp.
  apply fmap_Ok_inv in Hc as (checks & Hchecks & ->).
  unfold ComponentTracker.process in Hp. simpl in Hp.
  apply fmap_Ok_inv in Hp as (rs & Hrs & ->).
  exact (failures_sublist cn _ env tracker fromElement _ inputs checks rs Hchecks Hrs).
Qed.

End ComponentFailures.

(** ** The text scanned for a member *)

Section DecoratorText.
Import InputMetadataWalker.

Lemma string_length_app (a b : string) :
  String.length (a +:+ b) = (String.length a + String.length b)%nat.
Proof.
  induction a as [|x a IH]; [done|]. rewrite string_app_cons. simpl. by rewrite IH.
Qed.

Lemma substring_app_skip (a b : string) (k : nat) :
  String.substring (String.length a) k (a +:+ b) = String.substring 0 k b.
Proof. induction a as [|x a IH]; [done|]. by rewrite string_app_cons. Qed.

Lemma substring_app_prefix (a b : string) (k : nat) :
  (k ≤ String.length a)%nat →
  String.substring 0 k (a +:+ b) = String.substring 0 k a.
Proof.
  revert k. induction a as [|x a IH]; intros k Hk; simpl in Hk.
  - assert (k = 0%nat) as -> by lia. by destruct b.
  - rewrite string_app_cons. destruct k as [|k]; [done|]. simpl.
    rewrite IH; [done|lia].
Qed.

Lemma substring_all (a : string) : String.substring 0 (String.length a) a = a.
Proof. induction a as [|x a IH]; [done|]. simpl. by rewrite IH. Qed.

Lemma indexOf_char_ge (s : string) (c : ascii) : (-1 ≤ indexOf_char s c)%Z.
Proof.
  induction s as [|d s IH]; simpl; [lia|].
  destruct (decide (d = c)); [lia|]. destruct (decide (indexOf_char s c = -1)); lia.
Qed.

(** The index of the first [c] in [a + c + b] when [a] has none. *)
Lemma indexOf_char_app (a b : string) (c : ascii) :
  indexOf_char a c = -1 →
  indexOf_char (a +:+ String c b) c = Z.of_nat (String.length a).
Proof.
  induction a as [|d a IH].
  - intros _. change ("" +:+ String c b) with (String c b). simpl.
    by rewrite decide_True.
  - rewrite string_app_cons. simpl. pose proof (indexOf_char_ge a c).
    destruct (decide (d = c)); [lia|].
    destruct (decide (indexOf_char a c = -1)) as [Heq|]; [|lia].
    intros _. rewrite (IH Heq).
    destruct (decide (Z.of_nat (String.length a) = -1)); lia.
Qed.

(** [text.slice(from, to)] within the bounds of the text. *)
Lemma slice_within (text : string) (from to : nat) :
  (from ≤ to ≤ String.length text)%nat →
  slice text (Z.of_nat from) (Z.of_nat to) = String.substring from (to - from) text.
Proof.
  intros H. unfold slice, clamp.
  destruct (decide (Z.of_nat from < 0)%Z); [lia|].
  destruct (decide (Z.of_nat to < 0)%Z); [lia|].
  f_equal; lia.
Qed.

Lemma slice_from_app (a b : string) :
  slice_from (a +:+ b) (Z.of_nat (String.length a)) = b.
Proof.
  unfold slice_from.
  rewrite (slice_within (a +:+ b) (String.length a) (String.length (a +:+ b)))
    by (rewrite string_length_app; lia).
  rewrite string_length_app, substring_app_skip.
  replace (String.length a + String.length b - String.length a)%nat
    with (String.length b) by lia.
  apply substring_all.
Qed.

(** X15.  The text scanned for a member runs from the start of the member
    to the end of the line on which the member ends, the line feed
    excluded: a comment that follows the member on that line is read, the
    next line is not. *)
Theorem decoratorText_reads_line (before member comment rest name : string)
    (initializer : option Expression) :
  indexOf_char comment LF = -1 →
  decoratorText (before +:+ member +:+ comment +:+ String LF rest)
    (PropertyDeclaration.mk (Z.of_nat (String.length before))
       (Z.of_nat (String.length before + String.length member)) name initializer)
  = member +:+ comment.
Proof.
  intros Hline. unfold decoratorText. simpl.
  rewrite <- (string_app_assoc before member).
  rewrite <- string_length_app.
  rewrite slice_from_app, (indexOf_char_app _ _ _ Hline).
  rewrite <- Nat2Z.inj_add, string_length_app.
  rewrite string_app_assoc.
  rewrite slice_within
    by (rewrite !string_length_app; simpl; lia).
  rewrite substring_app_skip.
  replace (String.length before + String.length member + String.length comment
           - String.length before)%nat
    with (String.length (member +:+ comment)) by (rewrite string_length_app; lia).
  rewrite <- string_app_assoc.
  rewrite substring_app_prefix by lia. apply substring_all.
Qed.

Lemma decoratorText_reads_line_witness :
  decoratorText
    ("class A {" +:+ "@Input() foo: T;" +:+ " // @required" +:+ String LF "}")
    (PropertyDeclaration.mk 9 25 "foo" None)
  = "@Input() foo: T;" +:+ " // @required".
Proof.
  apply (decoratorText_reads_line "class A {" "@Input() foo: T;" " // @required" "}"
           "foo" None).
  reflexivity.
Defined.

(** X16.  When no line feed follows the member (it ends on the last line of
    a file without a final line feed), [indexOf] answers [-1] and the text
    scanned is the member without its last character: nothing behind the
    member is read, so a marker in a comment behind it is not seen, and in
    tagged mode the input is not required unless the member itself carries
    the marker. *)
Theorem decoratorText_last_line (before member after name : string)
    (initializer : option Expression) (options : list string) (dec : Decorator.t) :
  member ≠ "" →
  indexOf_char after LF = -1 →
  let text := before +:+ member +:+ after in
  let property :=
    PropertyDeclaration.mk (Z.of_nat (String.length before))
      (Z.of_nat (String.length before + String.length member)) name initializer in
  decoratorText text property
  = String.substring 0 (String.length member - 1) member
  ∧ (head options ≠ Some "all-without-defaults" →
     includes (String.substring 0 (String.length member - 1) member) "@required" = false →
     IPendingInput.required (pendingInput text options property dec) = false).
Proof.
  intros Hmember Hline text property.
  assert (Hlen : (0 < String.length member)%nat).
  { destruct member; [done|simpl; lia]. }
  assert (Htext : decoratorText text property
                  = String.substring 0 (String.length member - 1) member).
  { subst text property. unfold decoratorText. simpl.
    rewrite <- (string_app_assoc before member).
    rewrite <- string_length_app.
    rewrite slice_from_app, Hline.
    rewrite string_length_app, string_app_assoc.
    replace (Z.of_nat (String.length before + String.length member) + -1)%Z
      with (Z.of_nat (String.length before + (String.length member - 1))) by lia.
    rewrite slice_within by (rewrite !string_length_app; lia).
    rewrite substring_app_skip.
    replace (String.length before + (String.length member - 1) - String.length before)%nat
      with (String.length member - 1)%nat by lia.
    apply substring_app_prefix. lia. }
  split; [done|]. intros Hopt Hmarker.
  unfold pendingInput. simpl. rewrite Htext. unfold required_of. rewrite Hmarker.
  unfold getMode. destruct options as [|o options]; [done|]. simpl in Hopt.
  destruct (decide (o = "all-without-defaults")); [congruence|done].
Qed.

Lemma decoratorText_last_line_witness :
  decoratorText ("class A {" +:+ "@Input() foo: T;" +:+ " // @required }")
    (PropertyDeclaration.mk 9 25 "foo" None)
  = "@Input() foo: T"
  ∧ IPendingInput.required
      (pendingInput ("class A {" +:+ "@Input() foo: T;" +:+ " // @required }")
         ["tagged"] (PropertyDeclaration.mk 9 25 "foo" None) Examples.foo_decorator)
    = false.
Proof.
  destruct (decoratorText_last_line "class A {" "@Input() foo: T;" " // @required }"
              "foo" None ["tagged"] Examples.foo_decorator) as [Htext Hreq].
  - discriminate.
  - reflexivity.
  - split; [exact Htext|]. apply Hreq; [discriminate|reflexivity].
Defined.

End DecoratorText.

(** ** Usages seen by the tracker and by the visitor *)

Section Usages.
Import InputMetadataWalker.

Lemma args_ext (c : IComponent.t) (t1 t2 : IElementTracker.t) :
  (∀ p, p ∈ IElementTracker.properties t1 ↔ p ∈ IElementTracker.properties t2) →
  ComponentTracker.args c t1 = ComponentTracker.args c t2.
Proof.
  intros H. unfold ComponentTracker.args. apply map_ext. intros p.
  apply bool_decide_ext. rewrite !indexOf_found. apply H.
Qed.

(** X17.  Only the set of names a usage supplies matters: bindings and plain
    attributes count alike, and neither their order nor a repetition
    changes the outcome.  Two usages of the same tag in the same file and on
    the same line that supply the same names are evaluated to the same
    result, failures and exception alike. *)
Theorem supplied_names_count_as_a_set (env : Env) (c : IComponent.t)
    (fileName : string) (e1 e2 : ElementAst.t) (fromElement : bool) :
  ElementAst.name e1 = ElementAst.name e2 →
  ElementAst.sourceSpan_start_line e1 = ElementAst.sourceSpan_start_line e2 →
  (∀ p, p ∈ ElementAst.inputs e1 ++ ElementAst.attrs e1
        ↔ p ∈ ElementAst.inputs e2 ++ ElementAst.attrs e2) →
  ComponentTracker.process env (ComponentTracker.resolved c)
    (IElementTracker.mk fileName e1 (ElementAst.inputs e1 ++ ElementAst.attrs e1))
    fromElement
  = ComponentTracker.process env (ComponentTracker.resolved c)
      (IElementTracker.mk fileName e2 (ElementAst.inputs e2 ++ ElementAst.attrs e2))
      fromElement.
Proof.
  intros Hname Hline Hset. unfold ComponentTracker.process. simpl.
  rewrite (args_ext c _ (IElementTracker.mk fileName e2
                           (ElementAst.inputs e2 ++ ElementAst.attrs e2)))
    by exact Hset.
  f_equal. apply mapM_ext. intros check _.
  unfold ComponentTracker.process_check, ComponentTracker.used_in. simpl.
  by rewrite Hname, Hline.
Qed.

Lemma supplied_names_count_as_a_set_witness :
  ComponentTracker.process (Some "page") (ComponentTracker.resolved Examples.foobar)
    (IElementTracker.mk "page.component.html" Examples.bound ["foo"]) true
  = ComponentTracker.process (Some "page") (ComponentTracker.resolved Examples.foobar)
      (IElementTracker.mk "page.component.html" Examples2.bound_by_attribute
         ["foo"; "foo"]) true.
Proof.
  apply (supplied_names_count_as_a_set (Some "page") Examples.foobar
           "page.component.html" Examples.bound Examples2.bound_by_attribute true).
  - reflexivity.
  - reflexivity.
  - intros p. simpl. rewrite !elem_of_cons. tauto.
Defined.

Lemma set_tracker_same (w : t) : set_tracker (tracker w) w = w.
Proof. by destruct w. Qed.

(** [visitElement] in terms of the registry and the tracker, with the
    component name of the visiting walker handed to the checks as the
    definition does. *)
Lemma visitElement_cases (fileName : string) (element : ElementAst.t) (w : t) :
  let name := ElementAst.name element in
  let record :=
    IElementTracker.mk fileName element
      (ElementAst.inputs element ++ ElementAst.attrs element) in
  visitElement fileName element w =
  if skipped name then
    (Throw (TypeError "Cannot read property 'forEach' of null"), w)
  else
    match Registry.declaration_of name (tracker w) with
    | None =>
        (Throw (TypeError "Cannot read property 'forEach' of undefined"),
         set_tracker
           (TemplateRequireInputTracker.store name
              (ComponentTracker.mk (Registry.pending name (tracker w) ++ [record]) None)
              (tracker w))
           w)
    | Some c =>
        match ComponentTracker.process (componentName w) (ComponentTracker.resolved c)
                record true with
        | Ok failures =>
            (Ok (),
             add_failures
               (map (λ failure,
                       FailureAt (ElementAst.sourceSpan_start_offset element)
                         (ElementAst.sourceSpan_end_offset element
                          - ElementAst.sourceSpan_start_offset element)
                         (IFailure.message failure))
                    failures)
               w)
        | Throw e => (Throw e, w)
        end
    end.
Proof.
  intros name record. unfold visitElement.
  rewrite addElement_cases. fold name record.
  destruct (skipped name); [by rewrite set_tracker_same|].
  destruct (Registry.declaration_of name (tracker w)) as [c|]; [|done].
  destruct (ComponentTracker.process _ _ record true); simpl;
    by rewrite set_tracker_same.
Qed.

(** X18.  The outcome of [visitElement], case by case.  For a tag on the
    skip-list it ends in a [TypeError] with nothing changed.  For another
    tag without a declaration it ends in a [TypeError] after the usage has
    been queued.  For a tag with a declaration built by [pushLast], the
    outcome is that of evaluating the usage, and it is the same whatever
    component name the walker that built the declaration holds: when the
    evaluation returns, [visitElement] returns and reports every failure at
    the start offset of the element with the element's width; when it
    throws, [visitElement] ends in the exception of the evaluation, worded
    with some component name; in both cases the registry is left alone. *)
Theorem visitElement_outcome (fileName : string) (element : ElementAst.t) (w : t) :
  let name := ElementAst.name element in
  let record :=
    IElementTracker.mk fileName element
      (ElementAst.inputs element ++ ElementAst.attrs element) in
  (skipped name = true →
   visitElement fileName element w
   = (Throw (TypeError "Cannot read property 'forEach' of null"), w))
  ∧ (skipped name = false →
     Registry.declaration_of name (tracker w) = None →
     visitElement fileName element w
     = (Throw (TypeError "Cannot read property 'forEach' of undefined"),
        set_tracker
          (TemplateRequireInputTracker.store name
             (ComponentTracker.mk (Registry.pending name (tracker w) ++ [record]) None)
             (tracker w))
          w))
  ∧ (∀ (newFunction : list string → string → string + (list bool → string + bool))
       (cn : option string) (inputs : list IPendingInput.t) (c : IComponent.t)
       (env : Env),
       skipped name = false →
       Registry.declaration_of name (tracker w) = Some c →
       makeComponent newFunction cn inputs = Ok c →
       match ComponentTracker.process env (ComponentTracker.resolved c) record true with
       | Ok failures =>
           visitElement fileName element w
           = (Ok (),
              add_failures
                (map (λ failure,
                        FailureAt (ElementAst.sourceSpan_start_offset element)
                          (ElementAst.sourceSpan_end_offset element
                           - ElementAst.sourceSpan_start_offset element)
                          (IFailure.message failure))
                     failures)
                w)
       | Throw _ =>
           ∃ (env' : Env) (e : exn),
             ComponentTracker.process env' (ComponentTracker.resolved c) record true
             = Throw e
             ∧ visitElement fileName element w = (Throw e, w)
       end).
Proof.
  intros name record. subst name record.
  pose proof (visitElement_cases fileName element w) as Hcases.
  cbv zeta in Hcases. split; [|split].
  - intros Hskip. by rewrite Hskip in Hcases.
  - intros Hskip Hnone. by rewrite Hskip, Hnone in Hcases.
  - intros newFunction cn inputs c env Hskip Hsome Hc.
    rewrite Hskip, Hsome in Hcases.
    set (record := IElementTracker.mk fileName element
                     (ElementAst.inputs element ++ ElementAst.attrs element)) in *.
    destruct (ComponentTracker.process env (ComponentTracker.resolved c) record true)
      as [failures|e0] eqn:Henv.
    + by rewrite (process_env_irrelevant newFunction cn inputs c env (componentName w)
                    record true failures Hc Henv) in Hcases.
    + destruct (ComponentTracker.process (componentName w) (ComponentTracker.resolved c)
                  record true) as [failures|e] eqn:Hw.
      * rewrite (process_env_irrelevant newFunction cn inputs c (componentName w) env
                   record true failures Hc Hw) in Henv. discriminate Henv.
      * exists (componentName w), e. by split.
Qed.

Lemma visitElement_outcome_witness :
  visitElement "file.ts" Examples.test_element Examples2.declared_walker
  = (Ok (),
     add_failures
       [FailureAt 0 17
          "Component <foobar> is missing required input `foo` (declared in file.ts:0)"]
       Examples2.declared_walker).
Proof.
  destruct (visitElement_outcome "file.ts" Examples.test_element
              Examples2.declared_walker) as (_ & _ & H).
  specialize (H SampleHost.newFunction (Some "foobar") Examples2.test_inputs
                Examples2.test_component None).
  assert (Hskip : skipped (ElementAst.name Examples.test_element) = false)
    by (vm_compute; reflexivity).
  assert (Hsome : Registry.declaration_of (ElementAst.name Examples.test_element)
                    (tracker Examples2.declared_walker)
                  = Some Examples2.test_component)
    by (vm_compute; reflexivity).
  assert (Hc : makeComponent SampleHost.newFunction (Some "foobar") Examples2.test_inputs
               = Ok Examples2.test_component)
    by (vm_compute; reflexivity).
  exact (H Hskip Hsome Hc).
Defined.

End Usages.

(** ** Instances of the properties above *)

Section FurtherWitnesses.
Import InputMetadataWalker.

Lemma pushLast_registers_witness :
  ∃ c : IComponent.t,
    Registry.tracker_of "undefined"
      (tracker (snd (pushLast SampleHost.newFunction Examples2.nameless_walker)))
    = ComponentTracker.resolved c.
Proof.
  destruct (pushLast_registers SampleHost.newFunction Examples2.nameless_walker)
    as (c & errs & _ & H & _).
  - discriminate.
  - vm_compute. reflexivity.
  - exists c. exact H.
Defined.

Lemma pushLast_twice_witness :
  pushLast SampleHost.newFunction
    (snd (pushLast SampleHost.newFunction Examples.test_walker))
  = (Ok (), snd (pushLast SampleHost.newFunction Examples.test_walker)).
Proof.
  apply (pushLast_twice SampleHost.newFunction Examples.test_walker).
  vm_compute. reflexivity.
Defined.

Lemma inputs_without_component_replace_witness :
  ∃ c2 : IComponent.t,
    Registry.tracker_of "foobar"
      (tracker
         (snd (pushLast SampleHost.newFunction
                 (visitNgInput Examples.foo_property Examples.bogus_decorator
                    (snd (pushLast SampleHost.newFunction Examples.test_walker))))))
    = ComponentTracker.resolved c2.
Proof.
  destruct (inputs_without_component_replace SampleHost.newFunction Examples.test_walker
              [(Examples.foo_property, Examples.bogus_decorator)])
    as (c2 & _ & H).
  - discriminate.
  - vm_compute. reflexivity.
  - vm_compute. reflexivity.
  - exists c2. exact H.
Defined.

Lemma static_component_witness :
  ∃ c : IComponent.t,
    makeComponent SampleHost.newFunction (Some "foobar")
      [Examples.foo_input; Examples.bar_input] = Ok c.
Proof.
  destruct (static_component SampleHost.newFunction (Some "foobar")
              [Examples.foo_input; Examples.bar_input]) as (c & H & _).
  - repeat constructor.
  - exists c. exact H.
Defined.

Lemma static_class_never_throws_witness :
  fst (pushLast SampleHost.newFunction Examples.test_walker) = Ok ().
Proof.
  apply (static_class_never_throws SampleHost.newFunction Examples.test_walker).
  repeat constructor.
Defined.

Lemma failures_follow_inputs_witness :
  [("bar", Examples.cond_bar_decorator)]
  `sublist_of` [("foo", Examples.cond_foo_decorator); ("bar", Examples.cond_bar_decorator)].
Proof.
  apply (failures_follow_inputs SampleHost.newFunction (Some "cond") Examples.cond_inputs
           Examples.cond (Some "cond") Examples.cond_with_bar false
           [IFailure.mk "bar" Examples.cond_bar_decorator
              "Component <cond> is missing input `baz` required when `!foo` (used in app.component.html:3)"]).
  - vm_compute. reflexivity.
  - vm_compute. reflexivity.
Defined.

End FurtherWitnesses.
